(** * firehosePool: failure detection, reconnect loop and pool reconciliation

    A shallow embedding of [firehose.go] (package [firehosePool]):
    [failure], [retry] and [clientsReset], the methods of [*Server] that
    count errors inside a time frame, re-establish the connection to the
    delivery stream and resize the slice of clients.

    The methods mutate the server through a pointer; here every method is a
    function from the server record to the new record, together with the
    chronological list of the calls it makes to its collaborators (the log,
    the AWS session and service, the clients, the sleeping of the goroutine).
    What the collaborators answer (session and describe results, the clock)
    is an argument of the function. *)

From Stdlib Require Import ZArith List String Bool Lia.
Import ListNotations.
Open Scope Z_scope.

(** ** Machine integers and durations *)

Definition min_int64 : Z := - 2 ^ 63.
Definition max_int64 : Z := 2 ^ 63 - 1.

(** Two's complement wrap-around of a 64-bit signed integer ([x++] on an
    [int]/[int64] counter). *)
Definition wrap64 (z : Z) : Z := (z + 2 ^ 63) mod 2 ^ 64 - 2 ^ 63.

(** [time.Duration] is an int64 count of nanoseconds. *)
Definition Nanosecond : Z := 1.
Definition Second : Z := 1000000000 * Nanosecond.

(** [t.Sub(u)]: the duration [t - u], saturated at the largest and smallest
    [Duration] when the difference does not fit. Instants are nanosecond
    counts. *)
Definition Sub (t u : Z) : Z :=
  if t - u >? max_int64 then max_int64
  else if t - u <? min_int64 then min_int64
  else t - u.

(** ** The constants of the package *)

Definition maxConnectionsTries : Z := 3.
Definition connectionRetry : Z := 5 * Second.
Definition connectTimeout : Z := 15 * Second.
Definition errorsFrame : Z := 10 * Second.
Definition maxErrors : Z := 10.

(** Go's [error] values are kept as their message. *)
Definition error : Type := string.

(** The fields of [cfg] that the file reads. *)
Record Config : Type := mkConfig {
  StreamName : string;
  Profile : string;
  Region : string;
  Workers : Z
}.

(** The descriptor returned by [DescribeDeliveryStream]. *)
Record StreamDescription : Type := mkStreamDescription {
  DeliveryStreamName : string;
  DeliveryStreamARN : string;
  DeliveryStreamStatus : string
}.

Section Pool.

(** The [Client] and [session.Session] types are declared outside this
    file; the supervisor only stores, stops and creates them. *)
Context {Client Session : Type}.

(** [firehose.New(sess, &aws.Config{Region: ...})]. *)
Record Firehose : Type := mkFirehose {
  svcSession : Session;
  svcRegion : string
}.

(** The fields of [Server] used by the three methods. Instants
    ([lastConnection], [lastError]) are nanosecond counts; [errors] is a
    64-bit signed counter. *)
Record Server : Type := mkServer {
  cfg : Config;
  clients : list Client;
  awsSvc : option Firehose;
  lastConnection : Z;
  lastError : Z;
  errors : Z;
  reseting : bool;
  exiting : bool;
  failing : bool
}.

(** [NewClient(srv)] builds a client from the server it is given. *)
Variable NewClient : Server -> Client.

(** The lines written with [log.Printf]. *)
Inductive LogLine : Type :=
| LogErrorsDetected (n : Z)
| LogAttempts (tries : Z)
| LogReload (stream : string)
| LogSessionError (e : error)
| LogDescribeError (e : error)
| LogConnected (name arn status : string).

(** Calls to the collaborators, in the order they are made. *)
Inductive Event : Type :=
| EvLog (l : LogLine)
| EvGoRetry
| EvNewSessionWithOptions (profile : string)
| EvNewSession
| EvDescribe (svc : Firehose) (stream : string)
| EvExit (k : Z) (c : Client)
| EvNewClient (c : Client)
| EvStoreClientCount (n : Z)
| EvSleep (d : Z).

(** Field updates. *)
Definition set_clients (l : list Client) (s : Server) : Server :=
  mkServer (cfg s) l (awsSvc s) (lastConnection s) (lastError s) (errors s)
           (reseting s) (exiting s) (failing s).
Definition set_awsSvc (a : option Firehose) (s : Server) : Server :=
  mkServer (cfg s) (clients s) a (lastConnection s) (lastError s) (errors s)
           (reseting s) (exiting s) (failing s).
Definition set_lastConnection (t : Z) (s : Server) : Server :=
  mkServer (cfg s) (clients s) (awsSvc s) t (lastError s) (errors s)
           (reseting s) (exiting s) (failing s).
Definition set_lastError (t : Z) (s : Server) : Server :=
  mkServer (cfg s) (clients s) (awsSvc s) (lastConnection s) t (errors s)
           (reseting s) (exiting s) (failing s).
Definition set_errors (n : Z) (s : Server) : Server :=
  mkServer (cfg s) (clients s) (awsSvc s) (lastConnection s) (lastError s) n
           (reseting s) (exiting s) (failing s).
Definition set_reseting (b : bool) (s : Server) : Server :=
  mkServer (cfg s) (clients s) (awsSvc s) (lastConnection s) (lastError s)
           (errors s) b (exiting s) (failing s).
Definition set_failing (b : bool) (s : Server) : Server :=
  mkServer (cfg s) (clients s) (awsSvc s) (lastConnection s) (lastError s)
           (errors s) (reseting s) (exiting s) b.

(** ** [failure] *)

(** [now1] and [now2] are the two readings of [time.Now()], in the order
    the method takes them. *)
Definition failure (now1 now2 : Z) (srv : Server) : Server * list Event :=
  if reseting srv || exiting srv then (srv, [])
  else
    let srv1 := if Sub now1 (lastError srv) >? errorsFrame
                then set_errors 0 srv else srv in
    let srv2 := set_errors (wrap64 (errors srv1 + 1)) srv1 in
    let srv3 := set_lastError now2 srv2 in
    let tr := [EvLog (LogErrorsDetected (errors srv3))] in
    if errors srv3 >? maxErrors then (srv3, tr ++ [EvGoRetry])
    else (srv3, tr).

(** A sequence of [failure] calls, each with its two clock readings. *)
Fixpoint failures (calls : list (Z * Z)) (srv : Server) : Server :=
  match calls with
  | [] => srv
  | (now1, now2) :: rest => failures rest (fst (failure now1 now2 srv))
  end.

(** ** [clientsReset] *)

(** What the outside world answers during one call of [clientsReset]: the
    result of the session constructor, the result of
    [DescribeDeliveryStream], and the reading of [time.Now()] (the method
    reads the clock once on every path that reads it). *)
Record Attempt : Type := mkAttempt {
  sessionResult : Session + error;
  describeResult : StreamDescription + error;
  attemptNow : Z
}.

(** How a call ends: [return nil], [return err], a run-time panic (index
    out of range), or the loop bound of the embedding exhausted (shown
    below never to happen). *)
Inductive Outcome : Type :=
| RetNil
| RetErr (e : error)
| Panicked
| OutOfFuel.

(** [s[k]] on a slice: [None] is the index-out-of-range panic. *)
Definition index {A : Type} (s : list A) (k : Z) : option A :=
  if k <? 0 then None else nth_error s (Z.to_nat k).

(** [append(s[:k], s[k+1:]...)]. *)
Definition remove_at {A : Type} (s : list A) (k : Z) : list A :=
  firstn (Z.to_nat k) s ++ skipn (Z.to_nat (k + 1)) s.

(** [for i := currClients; i > srv.cfg.Workers; i-- { ... }] *)
Fixpoint shrinkLoop (fuel : nat) (i : Z) (srv : Server) (tr : list Event)
  : Server * list Event * Outcome :=
  if i >? Workers (cfg srv) then
    match fuel with
    | O => (srv, tr, OutOfFuel)
    | S fuel' =>
        let k := i - 1 in
        match index (clients srv) k with
        | None => (srv, tr, Panicked)
        | Some c =>
            shrinkLoop fuel' (i - 1)
                       (set_clients (remove_at (clients srv) k) srv)
                       (tr ++ [EvExit k c])
        end
    end
  else (srv, tr, RetNil).

(** [for i := currClients; i < srv.cfg.Workers; i++ { ... }] *)
Fixpoint growLoop (fuel : nat) (i : Z) (srv : Server) (tr : list Event)
  : Server * list Event * Outcome :=
  if i <? Workers (cfg srv) then
    match fuel with
    | O => (srv, tr, OutOfFuel)
    | S fuel' =>
        let c := NewClient srv in
        growLoop fuel' (i + 1)
                 (set_clients (clients srv ++ [c]) srv)
                 (tr ++ [EvNewClient c])
    end
  else (srv, tr, RetNil).

Definition len (s : list Client) : Z := Z.of_nat (List.length s).

(** The part of [clientsReset] after the connection is established: from
    [currClients := len(srv.clients)] to the end. *)
Definition reconcile (srv : Server) (tr : list Event)
  : Server * list Event * Outcome :=
  let currClients := len (clients srv) in
  if currClients =? Workers (cfg srv) then (srv, tr, RetNil)
  else if currClients >? Workers (cfg srv) then
    match shrinkLoop (Z.to_nat (currClients - Workers (cfg srv)))
                     currClients srv tr with
    | (srv1, tr1, RetNil) =>
        (srv1,
         tr1 ++ [EvStoreClientCount (len (clients srv1));
                 EvStoreClientCount (len (clients srv1))],
         RetNil)
    | other => other
    end
  else
    match growLoop (Z.to_nat (Workers (cfg srv) - currClients))
                   currClients srv tr with
    | (srv1, tr1, RetNil) =>
        (srv1, tr1 ++ [EvStoreClientCount (len (clients srv1))], RetNil)
    | other => other
    end.

(** The deferred [srv.reseting = false], run on every way out of the
    function once it is registered (return or panic). *)
Definition deferred (r : Server * list Event * Outcome)
  : Server * list Event * Outcome :=
  let '(srv, tr, out) := r in (set_reseting false srv, tr, out).

Definition clientsReset (env : Attempt) (srv : Server)
  : Server * list Event * Outcome :=
  if exiting srv then (srv, [], RetNil)
  else
    let srv1 := set_reseting true srv in
    let tr1 := [EvLog (LogReload (StreamName (cfg srv1)))] in
    let tr2 := tr1 ++ [if negb (String.eqb (Profile (cfg srv1)) EmptyString)
                       then EvNewSessionWithOptions (Profile (cfg srv1))
                       else EvNewSession] in
    deferred
      match sessionResult env with
      | inr err =>
          let tr3 := tr2 ++ [EvLog (LogSessionError err)] in
          let srv2 := set_errors (wrap64 (errors srv1 + 1)) srv1 in
          let srv3 := set_lastError (attemptNow env) srv2 in
          (srv3, tr3, RetErr err)
      | inl sess =>
          let svc := mkFirehose sess (Region (cfg srv1)) in
          let srv2 := set_awsSvc (Some svc) srv1 in
          let tr3 := tr2 ++ [EvDescribe svc (StreamName (cfg srv2))] in
          match describeResult env with
          | inr err =>
              let tr4 := tr3 ++ [EvLog (LogDescribeError err)] in
              let srv3 := set_errors (wrap64 (errors srv2 + 1)) srv2 in
              let srv4 := set_lastError (attemptNow env) srv3 in
              (srv4, tr4, RetErr err)
          | inl l =>
              let tr4 := tr3 ++ [EvLog (LogConnected
                                          (DeliveryStreamName l)
                                          (DeliveryStreamARN l)
                                          (DeliveryStreamStatus l))] in
              let srv3 := set_lastConnection (attemptNow env) srv2 in
              let srv4 := set_errors 0 srv3 in
              let srv5 := set_failing false srv4 in
              reconcile srv5 tr4
          end
      end.

(** ** [retry] *)

(** How one pass through the body of the [for] ends: [return], the
    goroutine aborted by a panic of [clientsReset], or the next pass with
    the new value of [tries]. *)
Inductive IterExit : Type :=
| IterReturn
| IterAbort
| IterAgain (tries : Z).

(** One pass through the body of [for { ... }]. *)
Definition retryIter (env : Attempt) (tries : Z) (srv : Server)
  : Server * list Event * IterExit :=
  match clientsReset env srv with
  | (srv1, tr1, RetNil) => (srv1, tr1, IterReturn)
  | (srv1, tr1, RetErr _) =>
      let tries1 := wrap64 (tries + 1) in
      let tr2 := tr1 ++ [EvLog (LogAttempts tries1)] in
      if tries1 >=? maxConnectionsTries
      then (srv1, tr2 ++ [EvSleep (connectionRetry * 2)], IterAgain tries1)
      else (srv1, tr2 ++ [EvSleep connectionRetry], IterAgain tries1)
  | (srv1, tr1, _) => (srv1, tr1, IterAbort)
  end.

(** How a run of [retry] over finitely many answers of the outside world
    ends: the method returned, it was aborted by a panic, or it is still
    in the loop after the last sleep, with [tries] as it is. *)
Inductive RetryExit : Type :=
| RetryReturned
| RetryAborted
| RetryRunning (tries : Z).

(** The [for] loop, one [Attempt] per pass. *)
Fixpoint retryLoop (envs : list Attempt) (tries : Z) (srv : Server)
  : Server * list Event * RetryExit :=
  match envs with
  | [] => (srv, [], RetryRunning tries)
  | env :: rest =>
      match retryIter env tries srv with
      | (srv1, tr1, IterReturn) => (srv1, tr1, RetryReturned)
      | (srv1, tr1, IterAbort) => (srv1, tr1, RetryAborted)
      | (srv1, tr1, IterAgain tries1) =>
          let '(srv2, tr2, ex) := retryLoop rest tries1 srv1 in
          (srv2, tr1 ++ tr2, ex)
      end
  end.

Definition retry (envs : list Attempt) (srv : Server)
  : Server * list Event * RetryExit :=
  if failing srv then (srv, [], RetryReturned)
  else retryLoop envs 0 (set_failing true srv).

(** ** Observations on a list of events *)

Definition sleeps (tr : list Event) : list Z :=
  flat_map (fun e => match e with EvSleep d => [d] | _ => [] end) tr.

Definition exits (tr : list Event) : list (Z * Client) :=
  flat_map (fun e => match e with EvExit k c => [(k, c)] | _ => [] end) tr.

Definition created (tr : list Event) : list Client :=
  flat_map (fun e => match e with EvNewClient c => [c] | _ => [] end) tr.

Definition spawned (tr : list Event) : nat :=
  List.length
    (flat_map (fun e => match e with EvGoRetry => [tt] | _ => [] end) tr).

(** Calls that reach the remote endpoint: session creation and stream
    description. *)
Definition remote_calls (tr : list Event) : nat :=
  List.length
    (flat_map (fun e => match e with
                        | EvNewSessionWithOptions _ | EvNewSession
                        | EvDescribe _ _ => [tt]
                        | _ => []
                        end) tr).

(** ** The goroutines around the mutex of the server

    [failure] and [retry] both run between [srv.Lock()] and the deferred
    [srv.Unlock()]. A goroutine that called [failure] is waiting at
    [srv.Lock()] or has returned; a goroutine started by [go srv.retry()]
    is waiting at [srv.Lock()], or inside the [for] loop with the mutex
    held (also while it sleeps), or has returned. A pass of the loop in
    which [clientsReset] panics ends the program: it is no step. *)
Inductive Goroutine : Type :=
| FailureAtLock
| RetryAtLock
| RetryInLoop (tries : Z)
| Returned.

Record System : Type := mkSystem {
  server : Server;
  locked : bool;
  goroutines : list Goroutine
}.

(** What a step of the system is. *)
Inductive Label : Type :=
| LCall                          (* some goroutine calls [srv.failure()] *)
| LFailure (now1 now2 : Z)       (* a call of [failure] runs, lock to unlock *)
| LRetryReturn                   (* [retry] finds [failing] set and returns *)
| LRetryEnter                    (* [retry] sets [failing], enters the loop *)
| LIterReturn (env : Attempt)    (* a pass of the loop ends in [return] *)
| LIterAgain (env : Attempt).    (* a pass of the loop ends in a sleep *)

Inductive step : System -> Label -> System -> Prop :=
| step_call : forall srv l gs,
    step (mkSystem srv l gs) LCall (mkSystem srv l (gs ++ [FailureAtLock]))
| step_failure : forall srv gs1 gs2 now1 now2,
    (* the caller takes the free mutex, runs the body and releases the
       mutex; each [go srv.retry()] adds a goroutine *)
    step (mkSystem srv false (gs1 ++ FailureAtLock :: gs2))
         (LFailure now1 now2)
         (mkSystem (fst (failure now1 now2 srv)) false
                   ((gs1 ++ Returned :: gs2) ++
                    repeat RetryAtLock (spawned (snd (failure now1 now2 srv)))))
| step_retry_return : forall srv gs1 gs2,
    failing srv = true ->
    step (mkSystem srv false (gs1 ++ RetryAtLock :: gs2))
         LRetryReturn
         (mkSystem srv false (gs1 ++ Returned :: gs2))
| step_retry_enter : forall srv gs1 gs2,
    failing srv = false ->
    step (mkSystem srv false (gs1 ++ RetryAtLock :: gs2))
         LRetryEnter
         (mkSystem (set_failing true srv) true (gs1 ++ RetryInLoop 0 :: gs2))
| step_iter_return : forall srv gs1 gs2 tries env srv1 tr,
    retryIter env tries srv = (srv1, tr, IterReturn) ->
    step (mkSystem srv true (gs1 ++ RetryInLoop tries :: gs2))
         (LIterReturn env)
         (mkSystem srv1 false (gs1 ++ Returned :: gs2))
| step_iter_again : forall srv gs1 gs2 tries env srv1 tr tries1,
    retryIter env tries srv = (srv1, tr, IterAgain tries1) ->
    step (mkSystem srv true (gs1 ++ RetryInLoop tries :: gs2))
         (LIterAgain env)
         (mkSystem srv1 true (gs1 ++ RetryInLoop tries1 :: gs2)).

(** States reached from a server with a free mutex and no goroutine in
    [failure] or [retry]. *)
Inductive reachable (srv0 : Server) : System -> Prop :=
| reach_init : reachable srv0 (mkSystem srv0 false [])
| reach_step : forall s l s',
    reachable srv0 s -> step s l s' -> reachable srv0 s'.

(** Finitely many steps. *)
Inductive steps : System -> System -> Prop :=
| steps_refl : forall s, steps s s
| steps_cons : forall s l s' s'',
    step s l s' -> steps s' s'' -> steps s s''.

(** The number of goroutines inside the loop of [retry]. *)
Definition loops (gs : list Goroutine) : nat :=
  List.length
    (flat_map (fun g => match g with RetryInLoop _ => [tt] | _ => [] end) gs).

(** The number of goroutines of [retry] waiting for the mutex. *)
Definition pending (gs : list Goroutine) : nat :=
  List.length
    (flat_map (fun g => match g with RetryAtLock => [tt] | _ => [] end) gs).

(** The number of callers of [failure] waiting for the mutex. *)
Definition waiting (gs : list Goroutine) : nat :=
  List.length
    (flat_map (fun g => match g with FailureAtLock => [tt] | _ => [] end) gs).

End Pool.

Arguments Firehose : clear implicits.
Arguments Server : clear implicits.
Arguments Event : clear implicits.
Arguments Attempt : clear implicits.
Arguments System : clear implicits.

(** The pairs (index, element) of a slice whose first element has index
    [k]. *)
Fixpoint index_from {A : Type} (k : Z) (l : list A) : list (Z * A) :=
  match l with
  | [] => []
  | x :: r => (k, x) :: index_from (k + 1) r
  end.

(** The clients that the growing loop creates in [n] passes: each one is
    built from the server as it is when [NewClient] is called. *)
Fixpoint newClients {Client Session : Type}
  (NewClient : Server Client Session -> Client) (n : nat)
  (srv : Server Client Session) : list Client :=
  match n with
  | O => []
  | S n' =>
      let c := NewClient srv in
      c :: newClients NewClient n' (set_clients (clients srv ++ [c]) srv)
  end.

(** The events of the shrinking loop: [Exit] on the removed clients, whose
    first has index [k], from the last index down. *)
Definition exitEvents {Client Session : Type} (k : Z) (removed : list Client)
  : list (Event Client Session) :=
  map (fun p => EvExit (fst p) (snd p)) (rev (index_from k removed)).

(** The mutex is held exactly while one goroutine is inside the loop of
    [retry]. *)
Definition lock_inv {Client Session : Type} (s : System Client Session)
  : Prop :=
  loops (goroutines s) = if locked s then 1%nat else 0%nat.

(** The sleep that follows a failed attempt, from the value of [tries]
    after its increment. *)
Definition backoff (tries : Z) : Z :=
  if tries >=? maxConnectionsTries then connectionRetry * 2
  else connectionRetry.

(** The values written to [clientCount] with [atomic.StoreInt64]. *)
Definition stored {Client Session : Type} (tr : list (Event Client Session))
  : list Z :=
  flat_map (fun e => match e with EvStoreClientCount n => [n] | _ => [] end) tr.

(** The calls that reach the remote endpoint, in order. *)
Definition remote {Client Session : Type} (tr : list (Event Client Session))
  : list (Event Client Session) :=
  flat_map (fun e => match e with
                     | EvNewSessionWithOptions _ | EvNewSession
                     | EvDescribe _ _ => [e]
                     | _ => []
                     end) tr.

(** The session constructor that [clientsReset] calls for a
    configuration. *)
Definition sessionEvent {Client Session : Type} (c : Config)
  : Event Client Session :=
  if negb (String.eqb (Profile c) EmptyString)
  then EvNewSessionWithOptions (Profile c) else EvNewSession.

(** The server and the events of [clientsReset] at the point where the
    connection is established and the clients are about to be counted. *)
Definition connected {Client Session : Type} (sess : Session) (now : Z)
  (srv : Server Client Session) : Server Client Session :=
  set_failing false
    (set_errors 0
       (set_lastConnection now
          (set_awsSvc (Some (mkFirehose sess (Region (cfg srv))))
             (set_reseting true srv)))).

Definition connectedTrace {Client Session : Type} (sess : Session)
  (l : StreamDescription) (srv : Server Client Session)
  : list (Event Client Session) :=
  [EvLog (LogReload (StreamName (cfg srv)));
   sessionEvent (cfg srv);
   EvDescribe (mkFirehose sess (Region (cfg srv))) (StreamName (cfg srv));
   EvLog (LogConnected (DeliveryStreamName l) (DeliveryStreamARN l)
                       (DeliveryStreamStatus l))].

(** A sequence of [failure] calls with the events of all of them. *)
Fixpoint failuresTrace {Client Session : Type} (calls : list (Z * Z))
  (srv : Server Client Session)
  : Server Client Session * list (Event Client Session) :=
  match calls with
  | [] => (srv, [])
  | (now1, now2) :: rest =>
      let '(srv1, tr1) := failure now1 now2 srv in
      let '(srv2, tr2) := failuresTrace rest srv1 in
      (srv2, tr1 ++ tr2)
  end.

(** Every call of the sequence reads the clock no more than [errorsFrame]
    after the instant [last] recorded before it. *)
Fixpoint withinFrame (last : Z) (calls : list (Z * Z)) : Prop :=
  match calls with
  | [] => True
  | (now1, now2) :: rest =>
      now1 - last <= errorsFrame /\ withinFrame now2 rest
  end.

(** Every call of the sequence reads the clock more than [errorsFrame]
    after the instant [last] recorded before it. *)
Fixpoint beyondFrame (last : Z) (calls : list (Z * Z)) : Prop :=
  match calls with
  | [] => True
  | (now1, now2) :: rest =>
      now1 - last > errorsFrame /\ beyondFrame now2 rest
  end.

(** The sum of a list of durations. *)
Definition total (l : list Z) : Z := fold_right Z.add 0 l.

(** An attempt fails when the session or the describe call returns an
    error. *)
Definition attemptFails {Session : Type} (env : Attempt Session) : bool :=
  match sessionResult env, describeResult env with
  | inl _, inl _ => false
  | _, _ => true
  end.

(** ** A concrete pool, for the examples

    Clients are numbered handles, sessions are numbered, and [NewClient]
    numbers a client after the size of the pool it joins. *)
Definition exClient : Type := nat.
Definition exSession : Type := nat.
Definition exNewClient (srv : Server exClient exSession) : exClient :=
  (100 + List.length (clients srv))%nat.

Definition exConfig (workers : Z) : Config :=
  mkConfig "stream"%string EmptyString "eu-west-1"%string workers.

Definition exServer (workers : Z) (cl : list exClient)
  : Server exClient exSession :=
  mkServer (exConfig workers) cl None 0 0 0 false false false.

Definition exDescription : StreamDescription :=
  mkStreamDescription "stream"%string "arn"%string "ACTIVE"%string.

Definition exOk (now : Z) : Attempt exSession :=
  mkAttempt (inl 1%nat) (inl exDescription) now.
Definition exSessionErr (now : Z) : Attempt exSession :=
  mkAttempt (inr "no credentials"%string) (inl exDescription) now.
Definition exDescribeErr (now : Z) : Attempt exSession :=
  mkAttempt (inl 1%nat) (inr "not found"%string) now.

(** A server that is exiting, with three clients and seven errors
    counted. *)
Definition exExiting : Server exClient exSession :=
  mkServer (exConfig 2) [0; 1; 2]%nat None 0 0 7 false true false.

(** A server at the threshold: ten errors counted. *)
Definition exThreshold : Server exClient exSession :=
  mkServer (exConfig 1) [0]%nat None 0 0 10 false false false.

(** Four states of the goroutines around [exThreshold]: a caller of
    [failure] has arrived; its call has run and started [retry]; [retry]
    has entered its loop; a second caller of [failure] has arrived. *)
Definition exCalled : System exClient exSession :=
  mkSystem exThreshold false [FailureAtLock].
Definition exSpawned : System exClient exSession :=
  mkSystem (fst (failure 100 101 exThreshold)) false [Returned; RetryAtLock].
Definition exLooping : System exClient exSession :=
  mkSystem (set_failing true (fst (failure 100 101 exThreshold))) true
           [Returned; RetryInLoop 0].
Definition exBlocked : System exClient exSession :=
  mkSystem (set_failing true (fst (failure 100 101 exThreshold))) true
           [Returned; RetryInLoop 0; FailureAtLock].

(** Eleven [failure] calls a few nanoseconds apart, and two calls more
    than [errorsFrame] apart. *)
Definition exBurst : list (Z * Z) :=
  map (fun k => (Z.of_nat k, Z.of_nat k)) (seq 1 11).
Definition exSparse : list (Z * Z) :=
  [(20000000000, 20000000001); (40000000002, 40000000003)].

(** * Properties *)

(** ** Arithmetic of the counters *)

Lemma wrap64_small (z : Z) :
  min_int64 <= z <= max_int64 -> wrap64 z = z.
Proof.
  unfold wrap64, min_int64, max_int64. intros H.
  rewrite Z.mod_small; lia.
Qed.

Lemma wrap64_one : wrap64 (0 + 1) = 1.
Proof. reflexivity. Qed.

Lemma Sub_exceeds (t u d : Z) :
  min_int64 <= d < max_int64 -> (Sub t u >? d) = (t - u >? d).
Proof.
  intros Hd. unfold Sub.
  destruct (t - u >? max_int64) eqn:Hhi.
  - apply Z.gtb_lt in Hhi.
    destruct (t - u >? d) eqn:E.
    + apply Z.gtb_lt. apply Z.gtb_lt in E. unfold max_int64 in *. lia.
    + rewrite Z.gtb_ltb in E. apply Z.ltb_ge in E. lia.
  - destruct (t - u <? min_int64) eqn:Hlo; [|reflexivity].
    apply Z.ltb_lt in Hlo. rewrite Z.gtb_ltb in Hhi. apply Z.ltb_ge in Hhi.
    rewrite !Z.gtb_ltb.
    destruct (d <? min_int64) eqn:E1; destruct (d <? t - u) eqn:E2;
      try reflexivity.
    + apply Z.ltb_lt in E1. apply Z.ltb_ge in E2. lia.
    + apply Z.ltb_ge in E1. apply Z.ltb_lt in E2. lia.
Qed.

(** ** Slices *)

Lemma index_last {A : Type} (l : list A) (c : A) :
  index (l ++ [c]) (Z.of_nat (List.length l)) = Some c.
Proof.
  unfold index.
  destruct (Z.of_nat (List.length l) <? 0) eqn:E.
  - apply Z.ltb_lt in E. lia.
  - rewrite Nat2Z.id, nth_error_app2 by lia.
    rewrite Nat.sub_diag. reflexivity.
Qed.

Lemma remove_at_last {A : Type} (l : list A) (c : A) :
  remove_at (l ++ [c]) (Z.of_nat (List.length l)) = l.
Proof.
  unfold remove_at.
  replace (Z.to_nat (Z.of_nat (List.length l) + 1)) with (S (List.length l))
    by lia.
  rewrite Nat2Z.id, firstn_app, Nat.sub_diag, firstn_all.
  rewrite skipn_all2 by (rewrite length_app; simpl; lia).
  cbn [firstn]. rewrite !app_nil_r. reflexivity.
Qed.

Lemma index_from_app {A : Type} (l1 l2 : list A) (k : Z) :
  index_from k (l1 ++ l2) =
  index_from k l1 ++ index_from (k + Z.of_nat (List.length l1)) l2.
Proof.
  revert k. induction l1 as [|x l1 IH]; intros k; simpl.
  - f_equal. lia.
  - rewrite IH. do 3 f_equal. lia.
Qed.

Lemma index_from_length {A : Type} (l : list A) (k : Z) :
  List.length (index_from k l) = List.length l.
Proof. revert k. induction l; intros; simpl; auto. Qed.

Lemma index_from_snd {A : Type} (l : list A) (k : Z) :
  map snd (index_from k l) = l.
Proof. revert k. induction l; intros; simpl; f_equal; auto. Qed.

Section Theory.

Context {Client Session : Type}.
Variable NewClient : Server Client Session -> Client.

Local Notation "'Srv'" := (Server Client Session).
Local Notation "'Ev'" := (Event Client Session).

Lemma set_clients_same (srv : Srv) : set_clients (clients srv) srv = srv.
Proof. destruct srv; reflexivity. Qed.

Lemma exits_app (t1 t2 : list Ev) : exits (t1 ++ t2) = exits t1 ++ exits t2.
Proof. unfold exits. apply flat_map_app. Qed.

Lemma created_app (t1 t2 : list Ev) :
  created (t1 ++ t2) = created t1 ++ created t2.
Proof. unfold created. apply flat_map_app. Qed.

Lemma sleeps_app (t1 t2 : list Ev) :
  sleeps (t1 ++ t2) = sleeps t1 ++ sleeps t2.
Proof. unfold sleeps. apply flat_map_app. Qed.

Lemma remote_calls_app (t1 t2 : list Ev) :
  remote_calls (t1 ++ t2) = (remote_calls t1 + remote_calls t2)%nat.
Proof. unfold remote_calls. rewrite flat_map_app, length_app. reflexivity. Qed.

Lemma exits_exitEvents (k : Z) (removed : list Client) :
  exits (exitEvents k removed : list Ev) = rev (index_from k removed).
Proof.
  unfold exitEvents. induction (rev (index_from k removed)) as [|[j c] l IH].
  - reflexivity.
  - simpl. f_equal. exact IH.
Qed.

Lemma created_exitEvents (k : Z) (removed : list Client) :
  created (exitEvents k removed : list Ev) = [].
Proof.
  unfold exitEvents. induction (rev (index_from k removed)) as [|[j c] l IH].
  - reflexivity.
  - simpl. exact IH.
Qed.

(** The shrinking loop on a slice [keep ++ removed], with [len keep] the
    configured number of workers: it stops the clients of [removed] from
    the last to the first and leaves [keep]. *)
Lemma shrinkLoop_spec (removed : list Client) :
  forall (keep : list Client) (srv : Srv) (tr : list Ev) (fuel : nat),
    clients srv = keep ++ removed ->
    Workers (cfg srv) = len keep ->
    (List.length removed <= fuel)%nat ->
    shrinkLoop fuel (len (clients srv)) srv tr =
    (set_clients keep srv, tr ++ exitEvents (len keep) removed, RetNil).
Proof.
  unfold len.
  induction removed as [|c s IH] using rev_ind; intros keep srv tr fuel Hcl HW Hf.
  - rewrite app_nil_r in Hcl.
    destruct fuel; simpl; rewrite HW, Hcl, Z.gtb_ltb, Z.ltb_irrefl;
      rewrite <- Hcl, set_clients_same, app_nil_r; reflexivity.
  - rewrite length_app in Hf. simpl in Hf.
    destruct fuel as [|fuel]; [lia|].
    assert (Hlen : Z.of_nat (List.length (clients srv)) - 1
                   = Z.of_nat (List.length (keep ++ s))).
    { rewrite Hcl. rewrite !length_app. simpl. lia. }
    simpl. rewrite HW.
    replace (Z.of_nat (List.length (clients srv)) >? Z.of_nat (List.length keep))
      with true.
    2:{ symmetry. apply Z.gtb_lt. rewrite Hcl.
        rewrite !length_app. simpl. lia. }
    rewrite Hlen, Hcl, app_assoc.
    rewrite index_last, remove_at_last.
    specialize (IH keep (set_clients (keep ++ s) srv)
                  (tr ++ [EvExit (Z.of_nat (List.length (keep ++ s))) c]) fuel).
    simpl in IH.
    rewrite IH by (auto; lia).
    unfold exitEvents. rewrite index_from_app. simpl.
    rewrite rev_app_distr. simpl. rewrite <- app_assoc. simpl.
    rewrite length_app, Nat2Z.inj_add. reflexivity.
Qed.

Lemma created_newClients (l : list Client) :
  created (map (fun c => EvNewClient c : Ev) l) = l.
Proof. induction l; simpl; f_equal; auto. Qed.

Lemma exits_newClients (l : list Client) :
  exits (map (fun c => EvNewClient c : Ev) l) = [].
Proof. induction l; simpl; auto. Qed.

Lemma newClients_length (n : nat) :
  forall srv : Srv, List.length (newClients NewClient n srv) = n.
Proof. induction n; intros; simpl; auto. Qed.

(** The growing loop appends the clients that [NewClient] builds, as many
    as are missing. *)
Lemma growLoop_spec (n : nat) :
  forall (srv : Srv) (tr : list Ev) (fuel : nat),
    Workers (cfg srv) - len (clients srv) = Z.of_nat n ->
    (n <= fuel)%nat ->
    growLoop NewClient fuel (len (clients srv)) srv tr =
    (set_clients (clients srv ++ newClients NewClient n srv) srv,
     tr ++ map (fun c => EvNewClient c) (newClients NewClient n srv),
     RetNil).
Proof.
  unfold len.
  induction n as [|n IH]; intros srv tr fuel HW Hf.
  - assert (E : (Z.of_nat (List.length (clients srv)) <? Workers (cfg srv))
                = false) by (apply Z.ltb_ge; lia).
    destruct fuel; simpl; rewrite E, !app_nil_r, set_clients_same; reflexivity.
  - destruct fuel as [|fuel]; [lia|].
    assert (E : (Z.of_nat (List.length (clients srv)) <? Workers (cfg srv))
                = true) by (apply Z.ltb_lt; lia).
    simpl. rewrite E.
    specialize (IH (set_clients (clients srv ++ [NewClient srv]) srv)
                  (tr ++ [EvNewClient (NewClient srv)]) fuel).
    simpl in IH. rewrite length_app in IH. simpl in IH.
    replace (Z.of_nat (List.length (clients srv)) + 1)
      with (Z.of_nat (List.length (clients srv) + 1)) by lia.
    rewrite IH by lia.
    rewrite <- !app_assoc. reflexivity.
Qed.

(** Both loops only replace the slice of clients. *)
Lemma shrinkLoop_frame (fuel : nat) :
  forall (i : Z) (srv : Srv) (tr : list Ev),
    fst (fst (shrinkLoop fuel i srv tr)) =
    set_clients (clients (fst (fst (shrinkLoop fuel i srv tr)))) srv.
Proof.
  induction fuel as [|fuel IH]; intros i srv tr; simpl.
  - destruct (i >? Workers (cfg srv)); simpl; rewrite set_clients_same; reflexivity.
  - destruct (i >? Workers (cfg srv)); simpl;
      [|rewrite set_clients_same; reflexivity].
    destruct (index (clients srv) (i - 1)); simpl;
      [|rewrite set_clients_same; reflexivity].
    rewrite IH at 1. reflexivity.
Qed.

Lemma growLoop_frame (fuel : nat) :
  forall (i : Z) (srv : Srv) (tr : list Ev),
    fst (fst (growLoop NewClient fuel i srv tr)) =
    set_clients (clients (fst (fst (growLoop NewClient fuel i srv tr)))) srv.
Proof.
  induction fuel as [|fuel IH]; intros i srv tr; simpl.
  - destruct (i <? Workers (cfg srv)); simpl; rewrite set_clients_same; reflexivity.
  - destruct (i <? Workers (cfg srv)); simpl;
      [|rewrite set_clients_same; reflexivity].
    rewrite IH at 1. reflexivity.
Qed.

(** Neither loop returns an error. *)
Lemma shrinkLoop_no_err (fuel : nat) :
  forall (i : Z) (srv : Srv) (tr : list Ev) (e : error),
    snd (shrinkLoop fuel i srv tr) <> RetErr e.
Proof.
  induction fuel as [|fuel IH]; intros i srv tr e; simpl.
  - destruct (i >? Workers (cfg srv)); simpl; discriminate.
  - destruct (i >? Workers (cfg srv)); simpl; [|discriminate].
    destruct (index (clients srv) (i - 1)); simpl; [apply IH|discriminate].
Qed.

Lemma growLoop_no_err (fuel : nat) :
  forall (i : Z) (srv : Srv) (tr : list Ev) (e : error),
    snd (growLoop NewClient fuel i srv tr) <> RetErr e.
Proof.
  induction fuel as [|fuel IH]; intros i srv tr e; simpl.
  - destruct (i <? Workers (cfg srv)); simpl; discriminate.
  - destruct (i <? Workers (cfg srv)); simpl; [apply IH|discriminate].
Qed.

Lemma reconcile_frame (srv : Srv) (tr : list Ev) :
  fst (fst (reconcile NewClient srv tr)) =
  set_clients (clients (fst (fst (reconcile NewClient srv tr)))) srv.
Proof.
  unfold reconcile.
  destruct (len (clients srv) =? Workers (cfg srv));
    [simpl; rewrite set_clients_same; reflexivity|].
  destruct (len (clients srv) >? Workers (cfg srv)).
  - pose proof (shrinkLoop_frame
                  (Z.to_nat (len (clients srv) - Workers (cfg srv)))
                  (len (clients srv)) srv tr) as H.
    destruct (shrinkLoop _ _ srv tr) as [[s1 t1] o1]. simpl in H.
    destruct o1; simpl; exact H.
  - pose proof (growLoop_frame
                  (Z.to_nat (Workers (cfg srv) - len (clients srv)))
                  (len (clients srv)) srv tr) as H.
    destruct (growLoop _ _ _ srv tr) as [[s1 t1] o1]. simpl in H.
    destruct o1; simpl; exact H.
Qed.

Lemma reconcile_no_err (srv : Srv) (tr : list Ev) (e : error) :
  snd (reconcile NewClient srv tr) <> RetErr e.
Proof.
  unfold reconcile.
  destruct (len (clients srv) =? Workers (cfg srv)); [simpl; discriminate|].
  destruct (len (clients srv) >? Workers (cfg srv)).
  - pose proof (shrinkLoop_no_err
                  (Z.to_nat (len (clients srv) - Workers (cfg srv)))
                  (len (clients srv)) srv tr e) as H.
    destruct (shrinkLoop _ _ srv tr) as [[s1 t1] o1]. simpl in H.
    destruct o1; simpl; congruence.
  - pose proof (growLoop_no_err
                  (Z.to_nat (Workers (cfg srv) - len (clients srv)))
                  (len (clients srv)) srv tr e) as H.
    destruct (growLoop _ _ _ srv tr) as [[s1 t1] o1]. simpl in H.
    destruct o1; simpl; congruence.
Qed.

(** ** The loops of [clientsReset] end within their bound *)

Lemma index_last_inv {A : Type} (l : list A) (c : A) :
  index l (Z.of_nat (List.length l) - 1) = Some c ->
  exists l', l = l' ++ [c].
Proof.
  intros H. destruct l as [|x l] using rev_ind.
  - unfold index in H. simpl in H. discriminate.
  - exists l. rewrite length_app in H. simpl in H.
    replace (Z.of_nat (List.length l + 1) - 1)
      with (Z.of_nat (List.length l)) in H by lia.
    rewrite index_last in H. congruence.
Qed.

Lemma shrinkLoop_total (fuel : nat) :
  forall (srv : Srv) (tr : list Ev),
    (Z.to_nat (len (clients srv) - Workers (cfg srv)) <= fuel)%nat ->
    snd (shrinkLoop fuel (len (clients srv)) srv tr) <> OutOfFuel.
Proof.
  unfold len.
  induction fuel as [|fuel IH]; intros srv tr Hf; simpl.
  - destruct (_ >? _) eqn:E; simpl; [|discriminate].
    apply Z.gtb_lt in E. lia.
  - destruct (_ >? _) eqn:E; simpl; [|discriminate].
    destruct (index _ _) as [c|] eqn:Hi; simpl; [|discriminate].
    destruct (index_last_inv _ _ Hi) as [l' Hl].
    rewrite Hl, length_app. simpl.
    replace (Z.of_nat (List.length l' + 1) - 1)
      with (Z.of_nat (List.length l')) by lia.
    rewrite remove_at_last.
    specialize (IH (set_clients l' srv)
                  (tr ++ [EvExit (Z.of_nat (List.length l')) c])).
    simpl in IH. apply IH.
    rewrite Hl, length_app in Hf. simpl in Hf. lia.
Qed.

Lemma growLoop_total (fuel : nat) :
  forall (i : Z) (srv : Srv) (tr : list Ev),
    (Z.to_nat (Workers (cfg srv) - i) <= fuel)%nat ->
    snd (growLoop NewClient fuel i srv tr) <> OutOfFuel.
Proof.
  induction fuel as [|fuel IH]; intros i srv tr Hf; simpl.
  - destruct (_ <? _) eqn:E; simpl; [|discriminate].
    apply Z.ltb_lt in E. lia.
  - destruct (_ <? _) eqn:E; simpl; [|discriminate].
    apply IH. simpl. apply Z.ltb_lt in E. lia.
Qed.

(** [clientsReset] always ends by [return] or by a panic: the bound given
    to its loops is never the reason it stops. *)
Lemma clientsReset_total (env : Attempt Session) (srv : Srv) :
  snd (clientsReset NewClient env srv) <> OutOfFuel.
Proof.
  unfold clientsReset.
  destruct (exiting srv); [simpl; discriminate|].
  destruct (sessionResult env) as [sess|e]; [|simpl; discriminate].
  destruct (describeResult env) as [l|e]; [|simpl; discriminate].
  match goal with |- snd (deferred (reconcile _ ?s ?t)) <> _ =>
    set (srv5 := s); set (tr4 := t) end.
  assert (H : snd (reconcile NewClient srv5 tr4) <> OutOfFuel).
  { unfold reconcile.
    destruct (_ =? _); [simpl; discriminate|].
    destruct (_ >? _).
    - pose proof (shrinkLoop_total
                    (Z.to_nat (len (clients srv5) - Workers (cfg srv5)))
                    srv5 tr4 (Nat.le_refl _)) as H.
      destruct (shrinkLoop _ _ srv5 tr4) as [[s1 t1] o1]. simpl in H.
      destruct o1; simpl; congruence.
    - pose proof (growLoop_total
                    (Z.to_nat (Workers (cfg srv5) - len (clients srv5)))
                    (len (clients srv5)) srv5 tr4 (Nat.le_refl _)) as H.
      destruct (growLoop _ _ _ srv5 tr4) as [[s1 t1] o1]. simpl in H.
      destruct o1; simpl; congruence. }
  destruct (reconcile NewClient srv5 tr4) as [[s1 t1] o1]. exact H.
Qed.

(** ** [clientsReset] while exiting *)

(** C5. When [exiting] is set, [clientsReset] returns nil at once: the
    server is exactly as it was (worker slice and every other field), no
    call is made to any collaborator, and in particular none reaches the
    remote endpoint (no session is created, no stream is described). *)
Theorem clientsReset_exiting_returns_nil_untouched
  (env : Attempt Session) (srv : Srv) :
  exiting srv = true ->
  clientsReset NewClient env srv = (srv, [], RetNil) /\
  remote_calls (snd (fst (clientsReset NewClient env srv))) = 0%nat.
Proof.
  intros Hex. unfold clientsReset. rewrite Hex. split; reflexivity.
Qed.

(** ** The error counter after [clientsReset] *)

(** C6, amended. After every call of [clientsReset] that returns nil while
    [exiting] is not set, the error counter is 0. *)
Theorem clientsReset_nil_not_exiting_errors_zero
  (env : Attempt Session) (srv srv' : Srv) (tr : list Ev) :
  exiting srv = false ->
  clientsReset NewClient env srv = (srv', tr, RetNil) ->
  errors srv' = 0.
Proof.
  intros Hex. unfold clientsReset. rewrite Hex.
  destruct (sessionResult env) as [sess|e]; [|simpl; discriminate].
  destruct (describeResult env) as [l|e]; [|simpl; discriminate].
  match goal with |- deferred (reconcile _ ?s ?t) = _ -> _ =>
    set (srv5 := s); set (tr4 := t) end.
  pose proof (reconcile_frame srv5 tr4) as Hfr.
  destruct (reconcile NewClient srv5 tr4) as [[s1 t1] o1].
  simpl in Hfr. simpl. intros H. inversion H; subst.
  rewrite Hfr. reflexivity.
Qed.

(** ** Resizing the pool *)

(** C9. When the number of clients already equals the configured number
    of workers, [clientsReset] leaves the slice of clients as it is, calls
    [Exit] on no client and creates no client (whatever the outside world
    answers, and whether [exiting] is set or not). *)
Theorem clientsReset_same_count_no_stop_no_create
  (env : Attempt Session) (srv : Srv) :
  len (clients srv) = Workers (cfg srv) ->
  clients (fst (fst (clientsReset NewClient env srv))) = clients srv /\
  exits (snd (fst (clientsReset NewClient env srv))) = [] /\
  created (snd (fst (clientsReset NewClient env srv))) = [].
Proof.
  intros Hlen. unfold clientsReset.
  destruct (exiting srv); [simpl; auto|].
  destruct (sessionResult env) as [sess|e].
  2:{ simpl. destruct (negb _); simpl; auto. }
  destruct (describeResult env) as [l|e].
  2:{ simpl. destruct (negb _); simpl; auto. }
  unfold reconcile. cbn [clients cfg set_failing set_errors set_lastConnection
                         set_awsSvc set_reseting].
  rewrite Hlen, Z.eqb_refl. simpl.
  destruct (negb _); simpl; auto.
Qed.

(** C1, amended. When [clientsReset] reaches the resizing (not exiting,
    session and describe succeed) with more clients than the configured
    number [W] of workers, [0 <= W], it returns nil, it calls [Exit] on
    exactly the clients at indices [len - 1] down to [W], in that order,
    it creates no client, and the slice that remains is the first [W]
    clients, in their order. *)
Theorem clientsReset_shrinks_from_tail
  (env : Attempt Session) (srv : Srv) :
  exiting srv = false ->
  attemptFails env = false ->
  0 <= Workers (cfg srv) < len (clients srv) ->
  snd (clientsReset NewClient env srv) = RetNil /\
  clients (fst (fst (clientsReset NewClient env srv))) =
    firstn (Z.to_nat (Workers (cfg srv))) (clients srv) /\
  exits (snd (fst (clientsReset NewClient env srv))) =
    rev (index_from (Workers (cfg srv))
                    (skipn (Z.to_nat (Workers (cfg srv))) (clients srv))) /\
  created (snd (fst (clientsReset NewClient env srv))) = [].
Proof.
  intros Hex Hok HW. unfold clientsReset. rewrite Hex.
  unfold attemptFails in Hok.
  destruct (sessionResult env) as [sess|e]; [|discriminate].
  destruct (describeResult env) as [l|e]; [|discriminate].
  match goal with |- context [reconcile _ ?s ?t] =>
    set (srv5 := s); set (tr4 := t) end.
  set (W := Workers (cfg srv)) in *.
  set (keep := firstn (Z.to_nat W) (clients srv)).
  set (removed := skipn (Z.to_nat W) (clients srv)).
  assert (Hk : len keep = W).
  { unfold len, keep. unfold len in HW. rewrite length_firstn. lia. }
  assert (Hr : List.length removed = Z.to_nat (len (clients srv) - W)).
  { unfold removed, len. rewrite length_skipn. lia. }
  assert (Hsp : shrinkLoop (Z.to_nat (len (clients srv5) - Workers (cfg srv5)))
                  (len (clients srv5)) srv5 tr4 =
                (set_clients keep srv5, tr4 ++ exitEvents (len keep) removed,
                 RetNil)).
  { apply shrinkLoop_spec.
    - unfold keep, removed. simpl. symmetry. apply firstn_skipn.
    - simpl. fold W. symmetry. exact Hk.
    - simpl. fold W. rewrite Hr. apply Nat.le_refl. }
  unfold reconcile. rewrite Hsp.
  change (len (clients srv5)) with (len (clients srv)).
  change (Workers (cfg srv5)) with W.
  replace (len (clients srv) =? W) with false by (symmetry; apply Z.eqb_neq; lia).
  replace (len (clients srv) >? W) with true by (symmetry; apply Z.gtb_lt; lia).
  cbn [deferred fst snd clients set_reseting set_clients].
  rewrite Hk. unfold tr4.
  rewrite !exits_app, !created_app, exits_exitEvents, created_exitEvents.
  destruct (negb _); simpl; rewrite ?app_nil_r; auto.
Qed.

(** C8. When [clientsReset] succeeds (not exiting, session and describe
    succeed) with fewer clients than the configured number of workers, it
    returns nil, the new slice is the old one followed by the clients it
    created, in the order of creation, exactly (target - current) of them,
    and [Exit] is called on no client. *)
Theorem clientsReset_grows_at_tail
  (env : Attempt Session) (srv : Srv) :
  exiting srv = false ->
  attemptFails env = false ->
  len (clients srv) < Workers (cfg srv) ->
  snd (clientsReset NewClient env srv) = RetNil /\
  clients (fst (fst (clientsReset NewClient env srv))) =
    clients srv ++ created (snd (fst (clientsReset NewClient env srv))) /\
  Z.of_nat (List.length (created (snd (fst (clientsReset NewClient env srv)))))
    = Workers (cfg srv) - len (clients srv) /\
  exits (snd (fst (clientsReset NewClient env srv))) = [].
Proof.
  intros Hex Hok HW. unfold clientsReset. rewrite Hex.
  unfold attemptFails in Hok.
  destruct (sessionResult env) as [sess|e]; [|discriminate].
  destruct (describeResult env) as [l|e]; [|discriminate].
  match goal with |- context [reconcile _ ?s ?t] =>
    set (srv5 := s); set (tr4 := t) end.
  set (W := Workers (cfg srv)) in *.
  set (n := Z.to_nat (W - len (clients srv))).
  assert (Hg : growLoop NewClient
                 (Z.to_nat (Workers (cfg srv5) - len (clients srv5)))
                 (len (clients srv5)) srv5 tr4 =
               (set_clients (clients srv5 ++ newClients NewClient n srv5) srv5,
                tr4 ++ map (fun c => EvNewClient c) (newClients NewClient n srv5),
                RetNil)).
  { apply growLoop_spec.
    - simpl. fold W. unfold n. lia.
    - simpl. fold W. unfold n. apply Nat.le_refl. }
  unfold reconcile. rewrite Hg.
  change (len (clients srv5)) with (len (clients srv)).
  change (Workers (cfg srv5)) with W.
  replace (len (clients srv) =? W) with false by (symmetry; apply Z.eqb_neq; lia).
  replace (len (clients srv) >? W) with false
    by (symmetry; rewrite Z.gtb_ltb; apply Z.ltb_ge; lia).
  cbn [deferred fst snd clients set_reseting set_clients].
  change (clients srv5) with (clients srv). unfold tr4.
  rewrite !exits_app, !created_app, created_newClients, exits_newClients.
  destruct (negb _); simpl; rewrite ?app_nil_r, ?newClients_length;
    repeat split; auto; unfold n; lia.
Qed.

(** ** [clientsReset] on its error paths *)

(** C10, amended. When [clientsReset] returns an error, the slice of
    clients is exactly as on entry, no client is stopped or created, and
    of the other fields only these are written: [errors] (incremented by
    one as a 64-bit counter, so by one whenever it is below the largest
    int64), [lastError] (the clock), [reseting] (false on return) and, when
    the session was established and the describe call failed, [awsSvc]
    (the service built from the new session). [cfg], [lastConnection],
    [exiting] and [failing] keep their values on both error paths. *)
Theorem clientsReset_error_frame
  (env : Attempt Session) (srv srv' : Srv) (tr : list Ev) (e : error) :
  clientsReset NewClient env srv = (srv', tr, RetErr e) ->
  srv' = mkServer (cfg srv) (clients srv)
           (match sessionResult env with
            | inl sess => Some (mkFirehose sess (Region (cfg srv)))
            | inr _ => awsSvc srv
            end)
           (lastConnection srv) (attemptNow env) (wrap64 (errors srv + 1))
           false (exiting srv) (failing srv) /\
  exits tr = [] /\ created tr = [] /\
  (min_int64 <= errors srv < max_int64 -> errors srv' = errors srv + 1).
Proof.
  unfold clientsReset.
  destruct (exiting srv) eqn:Hex; [discriminate|].
  destruct (sessionResult env) as [sess|e1].
  - destruct (describeResult env) as [l|e1].
    + match goal with |- deferred (reconcile _ ?s ?t) = _ -> _ =>
        set (srv5 := s); set (tr4 := t) end.
      pose proof (reconcile_no_err srv5 tr4 e) as Hne.
      destruct (reconcile NewClient srv5 tr4) as [[s1 t1] o1].
      simpl in *. intros H. inversion H; subst. congruence.
    + simpl. intros H. inversion H; subst; clear H.
      repeat split.
      * unfold set_reseting, set_lastError, set_errors, set_awsSvc. simpl.
        rewrite Hex. reflexivity.
      * destruct (negb _); reflexivity.
      * destruct (negb _); reflexivity.
      * intros Hr. simpl. apply wrap64_small.
        unfold min_int64, max_int64 in *. lia.
  - simpl. intros H. inversion H; subst; clear H.
    repeat split.
    + unfold set_reseting, set_lastError, set_errors, set_awsSvc. simpl.
        rewrite Hex. reflexivity.
    + destruct (negb _); reflexivity.
    + destruct (negb _); reflexivity.
    + intros Hr. simpl. apply wrap64_small.
      unfold min_int64, max_int64 in *. lia.
Qed.

(** ** The loop of [retry] *)

(** A failed attempt: the pass ends in the sleep chosen from the
    incremented [tries], and the flags are as before. *)
Lemma retryIter_fails (env : Attempt Session) (tries : Z) (srv : Srv) :
  exiting srv = false ->
  attemptFails env = true ->
  exists srv1 tr1,
    retryIter NewClient env tries srv =
      (srv1, tr1, IterAgain (wrap64 (tries + 1))) /\
    sleeps tr1 = [backoff (wrap64 (tries + 1))] /\
    exiting srv1 = false /\ failing srv1 = failing srv.
Proof.
  intros Hex Hf.
  assert (H : exists srv1 tr0 e,
             clientsReset NewClient env srv = (srv1, tr0, RetErr e) /\
             sleeps tr0 = [] /\ exiting srv1 = false /\
             failing srv1 = failing srv).
  { unfold clientsReset. rewrite Hex. unfold attemptFails in Hf.
    destruct (sessionResult env) as [sess|e1].
    - destruct (describeResult env) as [l|e1]; [discriminate|].
      eexists _, _, _. split; [reflexivity|]. simpl.
      destruct (negb _); simpl; auto.
    - eexists _, _, _. split; [reflexivity|]. simpl.
      destruct (negb _); simpl; auto. }
  destruct H as (srv1 & tr0 & e & Hc & Hs & Hex1 & Hfl).
  unfold retryIter. rewrite Hc. unfold backoff.
  destruct (wrap64 (tries + 1) >=? maxConnectionsTries);
    eexists _, _; (split; [reflexivity|]);
    rewrite !sleeps_app, Hs; simpl; auto.
Qed.

(** While every attempt fails, the loop keeps running; the n-th sleep is
    the backoff of [tries + n]. *)
Lemma retryLoop_all_fail (envs : list (Attempt Session)) :
  forall (tries : Z) (srv : Srv),
    exiting srv = false ->
    Forall (fun env => attemptFails env = true) envs ->
    0 <= tries ->
    tries + Z.of_nat (List.length envs) <= max_int64 ->
    snd (retryLoop NewClient envs tries srv) =
      RetryRunning (tries + Z.of_nat (List.length envs)) /\
    sleeps (snd (fst (retryLoop NewClient envs tries srv))) =
      map (fun n => backoff (tries + Z.of_nat n)) (seq 1 (List.length envs)).
Proof.
  induction envs as [|env rest IH]; intros tries srv Hex Hall Ht Hmax.
  - simpl. split; [f_equal; lia|reflexivity].
  - inversion Hall as [|? ? Hf Hrest]; subst.
    destruct (retryIter_fails env tries srv Hex Hf)
      as (srv1 & tr1 & Hit & Hs & Hex1 & _).
    assert (Hw : wrap64 (tries + 1) = tries + 1).
    { apply wrap64_small. simpl List.length in Hmax.
      unfold min_int64, max_int64 in *. lia. }
    rewrite Hw in *.
    simpl List.length in *.
    specialize (IH (tries + 1) srv1 Hex1 Hrest ltac:(lia) ltac:(lia)).
    destruct IH as [IHo IHs].
    cbn [retryLoop]. rewrite Hit.
    destruct (retryLoop NewClient rest (tries + 1) srv1) as [[s2 t2] ex].
    cbn [fst snd] in *. split.
    + rewrite IHo. f_equal. lia.
    + rewrite sleeps_app, Hs, IHs.
      cbn [seq map app]. f_equal.
      rewrite <- (seq_shift (List.length rest) 1), map_map. apply map_ext.
      intros n. f_equal. lia.
Qed.

(** C2, amended. In a run of [retry] where every attempt fails, the sleep
    after failed attempt [n] is [connectionRetry] when
    [n < maxConnectionsTries] and twice [connectionRetry] when
    [n >= maxConnectionsTries], for every [n] up to the largest value of
    the 64-bit counter [tries]. *)
Theorem retry_backoff_two_tiers
  (envs : list (Attempt Session)) (srv : Srv) (n : nat) :
  failing srv = false ->
  exiting srv = false ->
  Forall (fun env => attemptFails env = true) envs ->
  Z.of_nat (List.length envs) <= max_int64 ->
  (1 <= n <= List.length envs)%nat ->
  nth_error (sleeps (snd (fst (retry NewClient envs srv)))) (n - 1) =
    Some (if Z.of_nat n <? maxConnectionsTries
          then connectionRetry else 2 * connectionRetry).
Proof.
  intros Hfl Hex Hall Hmax Hn.
  unfold retry. rewrite Hfl.
  destruct (retryLoop_all_fail envs 0 (set_failing true srv))
    as [_ Hs]; auto; try lia.
  rewrite Hs.
  rewrite nth_error_map, nth_error_seq.
  replace (n - 1 <? List.length envs)%nat with true
    by (symmetry; apply Nat.ltb_lt; lia).
  cbn [option_map]. f_equal. unfold backoff.
  replace (0 + Z.of_nat (1 + (n - 1))) with (Z.of_nat n) by lia.
  rewrite Z.geb_leb.
  destruct (Z.of_nat n <? maxConnectionsTries) eqn:E.
  - apply Z.ltb_lt in E.
    replace (maxConnectionsTries <=? Z.of_nat n) with false
      by (symmetry; apply Z.leb_gt; lia).
    reflexivity.
  - apply Z.ltb_ge in E.
    replace (maxConnectionsTries <=? Z.of_nat n) with true
      by (symmetry; apply Z.leb_le; lia).
    lia.
Qed.

Lemma retryLoop_app (pre : list (Attempt Session)) :
  forall (rest : list (Attempt Session)) (tries : Z) (srv srvk : Srv)
         (trk : list Ev) (t : Z),
    retryLoop NewClient pre tries srv = (srvk, trk, RetryRunning t) ->
    retryLoop NewClient (pre ++ rest) tries srv =
      (fst (fst (retryLoop NewClient rest t srvk)),
       trk ++ snd (fst (retryLoop NewClient rest t srvk)),
       snd (retryLoop NewClient rest t srvk)).
Proof.
  induction pre as [|env pre IH]; intros rest tries srv srvk trk t H.
  - simpl in H. inversion H; subst. simpl.
    destruct (retryLoop NewClient rest t srvk) as [[s2 t2] ex]. reflexivity.
  - simpl in H. simpl.
    destruct (retryIter NewClient env tries srv) as [[s1 t1] [| |t']];
      try discriminate.
    destruct (retryLoop NewClient pre t' s1) as [[s2 t2] ex] eqn:E.
    inversion H; subst.
    rewrite (IH rest t' s1 srvk t2 t E).
    destruct (retryLoop NewClient rest t srvk) as [[s3 t3] ex3]. simpl.
    rewrite app_assoc. reflexivity.
Qed.

(** An error return changes neither [exiting] nor [failing]. *)
Lemma clientsReset_err_flags (env : Attempt Session) (srv srv1 : Srv)
      (tr : list Ev) (e : error) :
  clientsReset NewClient env srv = (srv1, tr, RetErr e) ->
  exiting srv1 = exiting srv /\ failing srv1 = failing srv.
Proof.
  unfold clientsReset. destruct (exiting srv) eqn:Hex; [discriminate|].
  destruct (sessionResult env) as [sess|e1].
  - destruct (describeResult env) as [l|e1].
    + match goal with |- deferred (reconcile _ ?s ?t) = _ -> _ =>
        set (srv5 := s); set (tr4 := t) end.
      pose proof (reconcile_no_err srv5 tr4 e) as Hne.
      destruct (reconcile NewClient srv5 tr4) as [[s1 t1] o1].
      simpl in *. intros H. inversion H; subst. congruence.
    + simpl. intros H. inversion H; subst. simpl. auto.
  - simpl. intros H. inversion H; subst. simpl. auto.
Qed.

(** A pass that ends in a sleep was made with [exiting] unset and changes
    neither [exiting] nor [failing]. *)
Lemma retryIter_again_flags (env : Attempt Session) (tries t : Z)
      (srv srv1 : Srv) (tr : list Ev) :
  retryIter NewClient env tries srv = (srv1, tr, IterAgain t) ->
  exiting srv1 = exiting srv /\ failing srv1 = failing srv.
Proof.
  unfold retryIter.
  destruct (clientsReset NewClient env srv) as [[s1 t1] o] eqn:E.
  destruct o as [|e| |]; try discriminate.
  destruct (clientsReset_err_flags env srv s1 t1 e E) as [He Hf].
  destruct (_ >=? _); intros H; inversion H; subst; auto.
Qed.

Lemma retryLoop_running_flags (pre : list (Attempt Session)) :
  forall (tries t : Z) (srv srvk : Srv) (trk : list Ev),
    retryLoop NewClient pre tries srv = (srvk, trk, RetryRunning t) ->
    exiting srvk = exiting srv /\ failing srvk = failing srv.
Proof.
  induction pre as [|env pre IH]; intros tries t srv srvk trk H.
  - simpl in H. inversion H; subst. auto.
  - simpl in H.
    destruct (retryIter NewClient env tries srv) as [[s1 t1] [| |t']] eqn:E;
      try discriminate.
    destruct (retryIter_again_flags _ _ _ _ _ _ E) as [He Hf].
    destruct (retryLoop NewClient pre t' s1) as [[s2 t2] ex] eqn:E2.
    inversion H; subst.
    destruct (IH _ _ _ _ _ E2) as [He2 Hf2]. split; congruence.
Qed.

(** After a nil outcome, [failing] is cleared unless the outcome is the one
    of the [exiting] short-circuit, which writes nothing. *)
Lemma clientsReset_nil_failing (env : Attempt Session) (srv srv1 : Srv)
      (tr : list Ev) :
  clientsReset NewClient env srv = (srv1, tr, RetNil) ->
  failing srv1 = if exiting srv then failing srv else false.
Proof.
  unfold clientsReset. destruct (exiting srv).
  - intros H. inversion H; subst. reflexivity.
  - destruct (sessionResult env) as [sess|e]; [|simpl; discriminate].
    destruct (describeResult env) as [l|e]; [|simpl; discriminate].
    match goal with |- deferred (reconcile _ ?s ?t) = _ -> _ =>
      set (srv5 := s); set (tr4 := t) end.
    pose proof (reconcile_frame srv5 tr4) as Hfr.
    destruct (reconcile NewClient srv5 tr4) as [[s1 t1] o1].
    simpl in Hfr. simpl. intros H. inversion H; subst.
    rewrite Hfr. reflexivity.
Qed.

(** C4, amended. Whenever [clientsReset] returns nil to the loop of
    [retry], after any number of failed passes, [retry] returns at that
    pass, whatever the outside world would answer to further attempts.
    After it returns, [failing] is false when [exiting] is not set; when
    the nil outcome is the one of the [exiting] short-circuit, [failing]
    is left true, as [retry] set it on entry. *)
Theorem retry_returns_when_clientsReset_nil
  (pre post : list (Attempt Session)) (env : Attempt Session)
  (srv srvk srv1 : Srv) (trk tr1 : list Ev) (tries : Z) :
  failing srv = false ->
  retryLoop NewClient pre 0 (set_failing true srv)
    = (srvk, trk, RetryRunning tries) ->
  clientsReset NewClient env srvk = (srv1, tr1, RetNil) ->
  retry NewClient (pre ++ env :: post) srv = (srv1, trk ++ tr1, RetryReturned)
  /\ failing srv1 = exiting srv.
Proof.
  intros Hfl Hpre Hnil. split.
  - unfold retry. rewrite Hfl.
    rewrite (retryLoop_app pre (env :: post) _ _ _ _ _ Hpre).
    cbn [retryLoop]. unfold retryIter. rewrite Hnil. reflexivity.
  - destruct (retryLoop_running_flags _ _ _ _ _ _ Hpre) as [He Hf].
    rewrite (clientsReset_nil_failing _ _ _ _ Hnil), He, Hf.
    simpl. destruct (exiting srv); reflexivity.
Qed.

(** ** [failure] *)

Lemma failure_flags (now1 now2 : Z) (srv : Srv) :
  reseting (fst (failure now1 now2 srv)) = reseting srv /\
  exiting (fst (failure now1 now2 srv)) = exiting srv.
Proof.
  unfold failure. destruct (reseting srv || exiting srv); [auto|].
  destruct (_ >? maxErrors); simpl;
    destruct (Sub now1 (lastError srv) >? errorsFrame); auto.
Qed.

Lemma failure_lastError (now1 now2 : Z) (srv : Srv) :
  reseting srv = false -> exiting srv = false ->
  lastError (fst (failure now1 now2 srv)) = now2.
Proof.
  intros Hr He. unfold failure. rewrite Hr, He. simpl.
  destruct (_ >? maxErrors); reflexivity.
Qed.

Lemma failures_app (c1 c2 : list (Z * Z)) :
  forall srv : Srv, failures (c1 ++ c2) srv = failures c2 (failures c1 srv).
Proof.
  induction c1 as [|[a b] c1 IH]; intros srv; simpl; auto.
Qed.

Lemma failures_flags (calls : list (Z * Z)) :
  forall srv : Srv,
    reseting (failures calls srv) = reseting srv /\
    exiting (failures calls srv) = exiting srv.
Proof.
  induction calls as [|[a b] calls IH]; intros srv; simpl; auto.
  destruct (IH (fst (failure a b srv))) as [H1 H2].
  destruct (failure_flags a b srv) as [H3 H4]. split; congruence.
Qed.

(** C3. In every sequence of [failure] calls made while the server is
    neither resetting nor exiting, if the time elapsed from one call (the
    instant it records in [lastError]) to the next call (the instant it
    reads first) exceeds [errorsFrame], the error count right after that
    next call is 1, whatever it was before. *)
Theorem failure_window_reset
  (pre : list (Z * Z)) (a1 a2 b1 b2 : Z) (srv : Srv) :
  reseting srv = false ->
  exiting srv = false ->
  b1 - a2 > errorsFrame ->
  errors (failures (pre ++ [(a1, a2); (b1, b2)]) srv) = 1.
Proof.
  intros Hr He Hgap.
  rewrite failures_app. cbn [failures].
  destruct (failures_flags pre srv) as [Hr1 He1].
  rewrite Hr in Hr1. rewrite He in He1.
  set (s0 := failures pre srv) in *.
  pose proof (failure_lastError a1 a2 s0 Hr1 He1) as Hl.
  destruct (failure_flags a1 a2 s0) as [Hr2 He2].
  rewrite Hr1 in Hr2. rewrite He1 in He2.
  set (s1 := fst (failure a1 a2 s0)) in *.
  unfold failure at 1. rewrite Hr2, He2, Hl. cbn [orb].
  rewrite Sub_exceeds by (unfold min_int64, max_int64, errorsFrame, Second, Nanosecond; lia).
  replace (b1 - a2 >? errorsFrame) with true
    by (symmetry; apply Z.gtb_lt; lia).
  destruct (_ >? maxErrors); reflexivity.
Qed.

(** What one call of [failure] starts: one goroutine of [retry] when the
    incremented count exceeds [maxErrors], none otherwise. *)
Lemma failure_spawns (now1 now2 : Z) (srv : Srv) :
  reseting srv = false -> exiting srv = false ->
  spawned (snd (failure now1 now2 srv)) =
    if errors (fst (failure now1 now2 srv)) >? maxErrors then 1%nat else 0%nat.
Proof.
  intros Hr He. unfold failure. rewrite Hr, He. cbn [orb].
  match goal with |- context [if ?c >? maxErrors then _ else _] =>
    destruct (c >? maxErrors) eqn:E end; cbn [fst snd]; rewrite E; reflexivity.
Qed.

(** The body of [failure] makes no call to the session, the service or
    the clients and does not sleep: nothing of the reconnection runs in
    the caller. *)
Lemma failure_runs_no_reconnect (now1 now2 : Z) (srv : Srv) :
  remote_calls (snd (failure now1 now2 srv)) = 0%nat /\
  sleeps (snd (failure now1 now2 srv)) = [] /\
  exits (snd (failure now1 now2 srv)) = [] /\
  created (snd (failure now1 now2 srv)) = [].
Proof.
  unfold failure. destruct (reseting srv || exiting srv); [simpl; auto|].
  destruct (_ >? maxErrors); simpl; auto.
Qed.

(** ** The goroutines and the mutex *)

Lemma loops_app (g1 g2 : list Goroutine) :
  loops (g1 ++ g2) = (loops g1 + loops g2)%nat.
Proof. unfold loops. rewrite flat_map_app, length_app. reflexivity. Qed.

Lemma waiting_app (g1 g2 : list Goroutine) :
  waiting (g1 ++ g2) = (waiting g1 + waiting g2)%nat.
Proof. unfold waiting. rewrite flat_map_app, length_app. reflexivity. Qed.

Lemma pending_app (g1 g2 : list Goroutine) :
  pending (g1 ++ g2) = (pending g1 + pending g2)%nat.
Proof. unfold pending. rewrite flat_map_app, length_app. reflexivity. Qed.

Lemma loops_repeat (n : nat) : loops (repeat RetryAtLock n) = 0%nat.
Proof. induction n; simpl; auto. Qed.

Lemma waiting_repeat (n : nat) : waiting (repeat RetryAtLock n) = 0%nat.
Proof. induction n; simpl; auto. Qed.

Lemma pending_repeat (n : nat) : pending (repeat RetryAtLock n) = n.
Proof.
  induction n; simpl; auto. unfold pending in *. simpl. f_equal. exact IHn.
Qed.

Ltac count_goroutines :=
  cbn [goroutines locked server] in *;
  repeat rewrite ?loops_app, ?waiting_app, ?pending_app,
                 ?loops_repeat, ?waiting_repeat, ?pending_repeat in *;
  change (loops (FailureAtLock :: ?g)) with (loops g) in *;
  change (loops (RetryAtLock :: ?g)) with (loops g) in *;
  change (loops (Returned :: ?g)) with (loops g) in *;
  change (loops (RetryInLoop ?t :: ?g)) with (S (loops g)) in *;
  change (waiting (FailureAtLock :: ?g)) with (S (waiting g)) in *;
  change (waiting (RetryAtLock :: ?g)) with (waiting g) in *;
  change (waiting (Returned :: ?g)) with (waiting g) in *;
  change (waiting (RetryInLoop ?t :: ?g)) with (waiting g) in *;
  change (pending (FailureAtLock :: ?g)) with (pending g) in *;
  change (pending (RetryAtLock :: ?g)) with (S (pending g)) in *;
  change (pending (Returned :: ?g)) with (pending g) in *;
  change (pending (RetryInLoop ?t :: ?g)) with (pending g) in *;
  change (loops []) with 0%nat in *;
  change (waiting []) with 0%nat in *;
  change (pending []) with 0%nat in *.

Lemma step_lock_inv (s s' : System Client Session) (l : Label) :
  step NewClient s l s' -> lock_inv s -> lock_inv s'.
Proof.
  unfold lock_inv.
  intros Hstep; inversion Hstep; subst; count_goroutines; intros Hinv;
    try destruct l0; lia.
Qed.

Lemma reachable_lock_inv (srv0 : Srv) (s : System Client Session) :
  reachable NewClient srv0 s -> lock_inv s.
Proof.
  induction 1 as [|s l s' _ IH Hstep].
  - reflexivity.
  - exact (step_lock_inv s s' l Hstep IH).
Qed.

(** While the mutex is held, every step leaves the callers of [failure]
    waiting, and only the return of the loop of [retry] frees the mutex. *)
Lemma step_locked_callers_wait (s s' : System Client Session) (l : Label) :
  step NewClient s l s' ->
  locked s = true ->
  (waiting (goroutines s) <= waiting (goroutines s'))%nat /\
  (locked s' = false -> exists env, l = LIterReturn env).
Proof.
  intros Hstep; inversion Hstep; subst; count_goroutines; intros Hl;
    try discriminate; split; try lia; intros Hl'; try congruence.
  eexists; reflexivity.
Qed.

(** A run of [retry] that returns is a sequence of steps of its
    goroutine: entry (or immediate return), then one step per pass. *)
Lemma retryLoop_steps (envs : list (Attempt Session)) :
  forall (tries : Z) (srv srv' : Srv) (tr : list Ev) (gs1 gs2 : list Goroutine),
    retryLoop NewClient envs tries srv = (srv', tr, RetryReturned) ->
    steps NewClient
          (mkSystem srv true (gs1 ++ RetryInLoop tries :: gs2))
          (mkSystem srv' false (gs1 ++ Returned :: gs2)).
Proof.
  induction envs as [|env rest IH]; intros tries srv srv' tr gs1 gs2 H.
  - simpl in H. discriminate.
  - simpl in H.
    destruct (retryIter NewClient env tries srv) as [[s1 t1] [| |t']] eqn:E.
    + inversion H; subst.
      eapply steps_cons; [eapply step_iter_return; exact E|apply steps_refl].
    + discriminate.
    + destruct (retryLoop NewClient rest t' s1) as [[s2 t2] ex] eqn:E2.
      inversion H; subst.
      eapply steps_cons; [eapply step_iter_again; exact E|].
      eapply IH. exact E2.
Qed.

Lemma retry_steps (envs : list (Attempt Session)) (srv srv' : Srv)
      (tr : list Ev) (gs1 gs2 : list Goroutine) :
  retry NewClient envs srv = (srv', tr, RetryReturned) ->
  steps NewClient
        (mkSystem srv false (gs1 ++ RetryAtLock :: gs2))
        (mkSystem srv' false (gs1 ++ Returned :: gs2)).
Proof.
  unfold retry. destruct (failing srv) eqn:Hf; intros H.
  - inversion H; subst.
    eapply steps_cons; [apply step_retry_return; exact Hf|apply steps_refl].
  - eapply steps_cons; [apply step_retry_enter; exact Hf|].
    eapply retryLoop_steps. exact H.
Qed.

(** C7, amended. In every state reached by goroutines that call
    [failure] and by the goroutines of [retry] they start:
    - at most one goroutine is inside the loop of [retry];
    - a call of [failure] runs only while no loop is running; right after
      its increment it starts one goroutine of [retry] if and only if
      [errors] exceeds [maxErrors] (none otherwise), and it has returned,
      with the mutex free, while that goroutine is still waiting at
      [srv.Lock()]: the call that starts the reconnection does not wait
      for it;
    - while the mutex is held by the loop, the callers of [failure] stay
      waiting at [srv.Lock()] and only the return of the loop frees the
      mutex;
    - a goroutine of [retry] that finds [failing] set returns without
      entering the loop and without changing the server. *)
Theorem failure_starts_retry_async_under_mutex
  (srv0 : Srv) (s : System Client Session) :
  reachable NewClient srv0 s ->
  (loops (goroutines s) <= 1)%nat /\
  (forall now1 now2 s',
      step NewClient s (LFailure now1 now2) s' ->
      locked s = false /\ loops (goroutines s) = 0%nat /\
      server s' = fst (failure now1 now2 (server s)) /\
      locked s' = false /\ loops (goroutines s') = 0%nat /\
      (waiting (goroutines s') + 1 = waiting (goroutines s))%nat /\
      pending (goroutines s') =
        (pending (goroutines s)
         + spawned (snd (failure now1 now2 (server s))))%nat /\
      remote_calls (snd (failure now1 now2 (server s))) = 0%nat /\
      sleeps (snd (failure now1 now2 (server s))) = [] /\
      (reseting (server s) = false -> exiting (server s) = false ->
       (spawned (snd (failure now1 now2 (server s))) = 1%nat <->
        errors (server s') > maxErrors) /\
       (spawned (snd (failure now1 now2 (server s))) = 0%nat <->
        errors (server s') <= maxErrors))) /\
  (locked s = true ->
   forall l s', step NewClient s l s' ->
     (waiting (goroutines s) <= waiting (goroutines s'))%nat /\
     (locked s' = false -> exists env, l = LIterReturn env)) /\
  (forall s', step NewClient s LRetryReturn s' ->
     server s' = server s /\ loops (goroutines s') = 0%nat) /\
  (failing (server s) = true ->
   forall envs, retry NewClient envs (server s) = (server s, [], RetryReturned)).
Proof.
  intros Hreach.
  pose proof (reachable_lock_inv srv0 s Hreach) as Hinv.
  unfold lock_inv in Hinv.
  split; [destruct (locked s); lia|].
  split.
  { intros now1 now2 s' Hstep.
    pose proof (reachable_lock_inv srv0 s' (reach_step _ _ _ _ _ Hreach Hstep))
      as Hinv'.
    unfold lock_inv in Hinv'.
    destruct (failure_runs_no_reconnect now1 now2 (server s)) as (Hrc & Hsl & _).
    inversion Hstep; subst. count_goroutines.
    repeat split; auto; try lia.
    - intros Hsp. rewrite (failure_spawns now1 now2 srv H H0) in Hsp.
      destruct (_ >? maxErrors) eqn:E; [|discriminate].
      apply Z.gtb_lt in E. lia.
    - intros Hgt. rewrite (failure_spawns now1 now2 srv H H0).
      replace (errors (fst (failure now1 now2 srv)) >? maxErrors) with true
        by (symmetry; apply Z.gtb_lt; lia).
      reflexivity.
    - intros Hsp. rewrite (failure_spawns now1 now2 srv H H0) in Hsp.
      destruct (_ >? maxErrors) eqn:E; [discriminate|].
      rewrite Z.gtb_ltb in E. apply Z.ltb_ge in E. exact E.
    - intros Hle. rewrite (failure_spawns now1 now2 srv H H0).
      replace (errors (fst (failure now1 now2 srv)) >? maxErrors) with false
        by (symmetry; rewrite Z.gtb_ltb; apply Z.ltb_ge; lia).
      reflexivity. }
  split.
  { intros Hl l s' Hstep. exact (step_locked_callers_wait s s' l Hstep Hl). }
  split.
  { intros s' Hstep.
    pose proof (reachable_lock_inv srv0 s' (reach_step _ _ _ _ _ Hreach Hstep))
      as Hinv'.
    unfold lock_inv in Hinv'.
    inversion Hstep; subst. count_goroutines. split; [reflexivity|lia]. }
  intros Hf envs. unfold retry. rewrite Hf. reflexivity.
Qed.

(** * Further properties of the three methods *)

(** ** The resizing, case by case *)

Lemma stored_app (t1 t2 : list Ev) :
  stored (t1 ++ t2) = stored t1 ++ stored t2.
Proof. unfold stored. apply flat_map_app. Qed.

Lemma remote_app (t1 t2 : list Ev) :
  remote (t1 ++ t2) = remote t1 ++ remote t2.
Proof. unfold remote. apply flat_map_app. Qed.

Lemma exitEvents_quiet (k : Z) (removed : list Client) :
  stored (exitEvents k removed : list Ev) = [] /\
  remote (exitEvents k removed : list Ev) = [] /\
  sleeps (exitEvents k removed : list Ev) = [].
Proof.
  unfold exitEvents. induction (rev (index_from k removed)) as [|[j c] l IH];
    simpl; auto.
Qed.

Lemma newClientEvents_quiet (l : list Client) :
  stored (map (fun c => EvNewClient c : Ev) l) = [] /\
  remote (map (fun c => EvNewClient c : Ev) l) = [] /\
  sleeps (map (fun c => EvNewClient c : Ev) l) = [].
Proof. induction l; simpl; auto. Qed.

(** The shrinking loop with a negative number of workers: every client is
    stopped, from the last to the first, and the next pass indexes the
    empty slice at -1. *)
Lemma shrinkLoop_negative (removed : list Client) :
  forall (srv : Srv) (tr : list Ev) (fuel : nat),
    clients srv = removed ->
    Workers (cfg srv) < 0 ->
    (S (List.length removed) <= fuel)%nat ->
    shrinkLoop fuel (len (clients srv)) srv tr =
    (set_clients [] srv, tr ++ exitEvents 0 removed, Panicked).
Proof.
  unfold len.
  induction removed as [|c s IH] using rev_ind; intros srv tr fuel Hcl HW Hf.
  - destruct fuel as [|fuel]; [simpl in Hf; lia|].
    simpl. rewrite Hcl. simpl.
    replace (0 >? Workers (cfg srv)) with true
      by (symmetry; apply Z.gtb_lt; lia).
    unfold index. simpl.
    change (exitEvents 0 [] : list Ev) with ([] : list Ev).
    rewrite <- Hcl, set_clients_same, app_nil_r. reflexivity.
  - rewrite length_app in Hf. simpl in Hf.
    destruct fuel as [|fuel]; [lia|].
    assert (Hlen : Z.of_nat (List.length (clients srv)) - 1
                   = Z.of_nat (List.length s)).
    { rewrite Hcl. rewrite !length_app. simpl. lia. }
    simpl.
    replace (Z.of_nat (List.length (clients srv)) >? Workers (cfg srv))
      with true by (symmetry; apply Z.gtb_lt; lia).
    rewrite Hlen, Hcl.
    rewrite index_last, remove_at_last.
    specialize (IH (set_clients s srv)
                  (tr ++ [EvExit (Z.of_nat (List.length s)) c]) fuel).
    simpl in IH.
    rewrite IH by (auto; lia).
    unfold exitEvents. rewrite index_from_app. simpl.
    rewrite rev_app_distr. simpl. rewrite <- app_assoc. reflexivity.
Qed.

(** What the resizing does in each of its four cases. *)
Lemma reconcile_cases (srv : Srv) (tr : list Ev) :
  reconcile NewClient srv tr =
  if len (clients srv) =? Workers (cfg srv) then (srv, tr, RetNil)
  else if Workers (cfg srv) <? 0 then
    (set_clients [] srv, tr ++ exitEvents 0 (clients srv), Panicked)
  else if len (clients srv) >? Workers (cfg srv) then
    (set_clients (firstn (Z.to_nat (Workers (cfg srv))) (clients srv)) srv,
     (tr ++ exitEvents (Workers (cfg srv))
                       (skipn (Z.to_nat (Workers (cfg srv))) (clients srv)))
     ++ [EvStoreClientCount (Workers (cfg srv));
         EvStoreClientCount (Workers (cfg srv))],
     RetNil)
  else
    (set_clients
       (clients srv ++
        newClients NewClient
                   (Z.to_nat (Workers (cfg srv) - len (clients srv))) srv) srv,
     (tr ++ map (fun c => EvNewClient c)
                (newClients NewClient
                   (Z.to_nat (Workers (cfg srv) - len (clients srv))) srv))
     ++ [EvStoreClientCount (Workers (cfg srv))],
     RetNil).
Proof.
  unfold reconcile.
  set (W := Workers (cfg srv)).
  destruct (len (clients srv) =? W) eqn:Eeq; [reflexivity|].
  apply Z.eqb_neq in Eeq.
  assert (Hnn : 0 <= len (clients srv)) by (unfold len; lia).
  destruct (W <? 0) eqn:Eneg.
  - apply Z.ltb_lt in Eneg.
    replace (len (clients srv) >? W) with true
      by (symmetry; apply Z.gtb_lt; lia).
    rewrite (shrinkLoop_negative (clients srv) srv tr); auto.
    unfold len. lia.
  - apply Z.ltb_ge in Eneg.
    destruct (len (clients srv) >? W) eqn:Egt.
    + apply Z.gtb_lt in Egt.
      set (keep := firstn (Z.to_nat W) (clients srv)).
      set (removed := skipn (Z.to_nat W) (clients srv)).
      assert (Hk : len keep = W).
      { unfold len, keep. unfold len in Egt. rewrite length_firstn. lia. }
      rewrite (shrinkLoop_spec removed keep srv tr).
      * cbn [clients set_clients]. rewrite Hk. reflexivity.
      * unfold keep, removed. symmetry. apply firstn_skipn.
      * fold W. symmetry. exact Hk.
      * unfold removed, len. rewrite length_skipn. unfold len in Egt. lia.
    + rewrite Z.gtb_ltb in Egt. apply Z.ltb_ge in Egt.
      rewrite (growLoop_spec (Z.to_nat (W - len (clients srv))) srv tr).
      * cbn [clients set_clients]. unfold len at 3.
        rewrite length_app, newClients_length.
        replace (Z.of_nat (List.length (clients srv)
                           + Z.to_nat (W - len (clients srv)))) with W
          by (unfold len in *; lia).
        reflexivity.
      * fold W. lia.
      * apply Nat.le_refl.
Qed.

(** [clientsReset] once the session and the stream description are
    there. *)
Lemma clientsReset_connected (env : Attempt Session) (srv : Srv)
      (sess : Session) (l : StreamDescription) :
  exiting srv = false ->
  sessionResult env = inl sess ->
  describeResult env = inl l ->
  clientsReset NewClient env srv =
  deferred (reconcile NewClient (connected sess (attemptNow env) srv)
                      (connectedTrace sess l srv)).
Proof.
  intros Hex Hs Hd. unfold clientsReset. rewrite Hex, Hs, Hd. reflexivity.
Qed.

Lemma remote_sessionEvent (c : Config) :
  remote [sessionEvent c : Ev] = [sessionEvent c] /\
  stored [sessionEvent c : Ev] = [] /\
  exits [sessionEvent c : Ev] = [] /\
  created [sessionEvent c : Ev] = [].
Proof. unfold sessionEvent. destruct (negb _); simpl; auto. Qed.

Lemma connectedTrace_observed (sess : Session) (l : StreamDescription)
      (srv : Srv) :
  remote (connectedTrace sess l srv) =
    [sessionEvent (cfg srv);
     EvDescribe (mkFirehose sess (Region (cfg srv))) (StreamName (cfg srv))] /\
  stored (connectedTrace sess l srv) = [] /\
  exits (connectedTrace sess l srv) = [] /\
  created (connectedTrace sess l srv) = [].
Proof.
  unfold connectedTrace, sessionEvent. destruct (negb _); simpl; auto.
Qed.

Ltac unfold_setters :=
  unfold connected, set_clients, set_reseting, set_failing, set_errors,
         set_lastConnection, set_lastError, set_awsSvc;
  cbn [cfg clients awsSvc lastConnection lastError errors reseting exiting
       failing].

Ltac connected_cases sess now srv :=
  rewrite reconcile_cases;
  change (cfg (connected sess now srv)) with (cfg srv);
  change (clients (connected sess now srv)) with (clients srv).

(** ** How [clientsReset] ends *)

(** X1. The way a call of [clientsReset] ends is fixed by [exiting], the
    two answers of the remote endpoint and the sign of the configured
    number of workers: nil while exiting; the error of the session, or
    else of the describe call, when one fails; otherwise a panic (index
    out of range) when [Workers] is negative and nil when it is not. *)
Theorem clientsReset_outcome (env : Attempt Session) (srv : Srv) :
  snd (clientsReset NewClient env srv) =
  if exiting srv then RetNil
  else match sessionResult env with
       | inr e => RetErr e
       | inl _ =>
           match describeResult env with
           | inr e => RetErr e
           | inl _ => if Workers (cfg srv) <? 0 then Panicked else RetNil
           end
       end.
Proof.
  destruct (exiting srv) eqn:Hex.
  - unfold clientsReset. rewrite Hex. reflexivity.
  - destruct (sessionResult env) as [sess|e] eqn:Hs.
    + destruct (describeResult env) as [l|e] eqn:Hd.
      * rewrite (clientsReset_connected env srv sess l Hex Hs Hd).
        connected_cases sess (attemptNow env) srv.
        assert (Hnn : 0 <= len (clients srv)) by (unfold len; lia).
        destruct (len (clients srv) =? Workers (cfg srv)) eqn:Eeq.
        { apply Z.eqb_eq in Eeq.
          replace (Workers (cfg srv) <? 0) with false
            by (symmetry; apply Z.ltb_ge; lia).
          reflexivity. }
        destruct (Workers (cfg srv) <? 0); [reflexivity|].
        destruct (len (clients srv) >? Workers (cfg srv)); reflexivity.
      * unfold clientsReset. rewrite Hex, Hs, Hd. reflexivity.
    + unfold clientsReset. rewrite Hex, Hs. reflexivity.
Qed.

(** X3. With a negative configured number of workers, a call of
    [clientsReset] that gets its session and its stream description calls
    [Exit] on every client, from the last to the first, empties the slice
    and then panics on the index -1; no client is created, [clientCount]
    is not stored, and the deferred function has cleared [reseting]. *)
Theorem clientsReset_negative_workers_panics
  (env : Attempt Session) (srv : Srv) :
  exiting srv = false ->
  attemptFails env = false ->
  Workers (cfg srv) < 0 ->
  snd (clientsReset NewClient env srv) = Panicked /\
  clients (fst (fst (clientsReset NewClient env srv))) = [] /\
  exits (snd (fst (clientsReset NewClient env srv))) =
    rev (index_from 0 (clients srv)) /\
  created (snd (fst (clientsReset NewClient env srv))) = [] /\
  stored (snd (fst (clientsReset NewClient env srv))) = [] /\
  reseting (fst (fst (clientsReset NewClient env srv))) = false.
Proof.
  intros Hex Hok HW. unfold attemptFails in Hok.
  destruct (sessionResult env) as [sess|e] eqn:Hs; [|discriminate].
  destruct (describeResult env) as [l|e] eqn:Hd; [|discriminate].
  rewrite (clientsReset_connected env srv sess l Hex Hs Hd).
  connected_cases sess (attemptNow env) srv.
  assert (Hnn : 0 <= len (clients srv)) by (unfold len; lia).
  replace (len (clients srv) =? Workers (cfg srv)) with false
    by (symmetry; apply Z.eqb_neq; lia).
  replace (Workers (cfg srv) <? 0) with true
    by (symmetry; apply Z.ltb_lt; lia).
  destruct (connectedTrace_observed sess l srv) as (_ & Hst & Hx & Hc).
  destruct (exitEvents_quiet 0 (clients srv)) as (Hst' & _ & _).
  cbn [deferred fst snd].
  rewrite exits_app, created_app, stored_app, Hst, Hx, Hc, Hst',
    exits_exitEvents, created_exitEvents.
  repeat split; reflexivity.
Qed.

(** X4. Reconciling twice: after a call of [clientsReset] that returned
    nil with [exiting] not set, a second call that gets its session and
    stream description returns nil, leaves the slice of clients as the
    first call left it, stops and creates no client and does not store
    [clientCount]. *)
Theorem clientsReset_twice_keeps_pool
  (env1 env2 : Attempt Session) (srv srv1 : Srv) (tr1 : list Ev) :
  exiting srv = false ->
  clientsReset NewClient env1 srv = (srv1, tr1, RetNil) ->
  attemptFails env2 = false ->
  snd (clientsReset NewClient env2 srv1) = RetNil /\
  clients (fst (fst (clientsReset NewClient env2 srv1))) = clients srv1 /\
  exits (snd (fst (clientsReset NewClient env2 srv1))) = [] /\
  created (snd (fst (clientsReset NewClient env2 srv1))) = [] /\
  stored (snd (fst (clientsReset NewClient env2 srv1))) = [].
Proof.
  intros Hex H1 Hok.
  assert (Hpost : len (clients srv1) = Workers (cfg srv1) /\
                  exiting srv1 = false).
  { unfold clientsReset in H1. rewrite Hex in H1.
    destruct (sessionResult env1) as [sess|e]; [|simpl in H1; discriminate].
    destruct (describeResult env1) as [l|e]; [|simpl in H1; discriminate].
    revert H1.
    match goal with |- deferred (reconcile _ ?s ?t) = _ -> _ =>
      change s with (connected sess (attemptNow env1) srv);
      set (tr4 := t) end.
    connected_cases sess (attemptNow env1) srv.
    assert (Hnn : 0 <= len (clients srv)) by (unfold len; lia).
    destruct (len (clients srv) =? Workers (cfg srv)) eqn:Eeq.
    { apply Z.eqb_eq in Eeq. intros H. inversion H; subst.
      split; [exact Eeq|exact Hex]. }
    apply Z.eqb_neq in Eeq.
    destruct (Workers (cfg srv) <? 0) eqn:Eneg; [intros H; discriminate|].
    apply Z.ltb_ge in Eneg.
    destruct (len (clients srv) >? Workers (cfg srv)) eqn:Egt;
      intros H; inversion H; subst; clear H; (split; [|exact Hex]).
    - apply Z.gtb_lt in Egt.
      cbn. unfold len in *. rewrite length_firstn. lia.
    - rewrite Z.gtb_ltb in Egt. apply Z.ltb_ge in Egt.
      cbn. unfold len in *. rewrite length_app, newClients_length. lia. }
  destruct Hpost as [Hlen Hex1].
  unfold attemptFails in Hok.
  destruct (sessionResult env2) as [sess|e] eqn:Hs; [|discriminate].
  destruct (describeResult env2) as [l|e] eqn:Hd; [|discriminate].
  rewrite (clientsReset_connected env2 srv1 sess l Hex1 Hs Hd).
  connected_cases sess (attemptNow env2) srv1.
  rewrite Hlen, Z.eqb_refl.
  destruct (connectedTrace_observed sess l srv1) as (_ & Hst & Hx & Hc).
  cbn [deferred fst snd]. rewrite Hst, Hx, Hc.
  repeat split; reflexivity.
Qed.

(** X5. A call of [clientsReset] made while [exiting] is not set creates
    exactly one session, with the configured profile when there is one
    and with the default constructor when the profile is empty; it calls
    [DescribeDeliveryStream] exactly when the session was created, once,
    on the service built from that session and the configured region, for
    the configured stream name; it makes no other call to the remote
    endpoint. *)
Theorem clientsReset_remote_calls (env : Attempt Session) (srv : Srv) :
  exiting srv = false ->
  remote (snd (fst (clientsReset NewClient env srv))) =
  sessionEvent (cfg srv) ::
  match sessionResult env with
  | inl sess =>
      [EvDescribe (mkFirehose sess (Region (cfg srv))) (StreamName (cfg srv))]
  | inr _ => []
  end.
Proof.
  intros Hex.
  destruct (sessionResult env) as [sess|e] eqn:Hs.
  - destruct (describeResult env) as [l|e] eqn:Hd.
    + rewrite (clientsReset_connected env srv sess l Hex Hs Hd).
      connected_cases sess (attemptNow env) srv.
      destruct (connectedTrace_observed sess l srv) as (Hr & _).
      destruct (exitEvents_quiet 0 (clients srv)) as (_ & Hr0 & _).
      destruct (exitEvents_quiet (Workers (cfg srv))
                  (skipn (Z.to_nat (Workers (cfg srv))) (clients srv)))
        as (_ & Hr1 & _).
      destruct (newClientEvents_quiet
                  (newClients NewClient
                     (Z.to_nat (Workers (cfg srv) - len (clients srv)))
                     (connected sess (attemptNow env) srv)))
        as (_ & Hr2 & _).
      destruct (len (clients srv) =? Workers (cfg srv));
        [exact Hr|].
      destruct (Workers (cfg srv) <? 0).
      { cbn [deferred fst snd]. rewrite remote_app, Hr, Hr0. reflexivity. }
      destruct (len (clients srv) >? Workers (cfg srv));
        cbn [deferred fst snd]; rewrite !remote_app, Hr, ?Hr1, ?Hr2;
        reflexivity.
    + unfold clientsReset. rewrite Hex, Hs, Hd.
      fold (sessionEvent (cfg srv) : Ev). unfold sessionEvent.
      destruct (negb _); reflexivity.
  - unfold clientsReset. rewrite Hex, Hs.
    unfold sessionEvent. destruct (negb _); reflexivity.
Qed.

(** X6. What a call of [clientsReset] that returns nil, with [exiting]
    not set, stores in [clientCount]: nothing when the number of clients
    already equals the configured number (the counter is left as it
    was), the configured number twice after a shrink, and once after a
    growth. *)
Theorem clientsReset_stored_count
  (env : Attempt Session) (srv srv' : Srv) (tr : list Ev) :
  exiting srv = false ->
  clientsReset NewClient env srv = (srv', tr, RetNil) ->
  stored tr =
  if len (clients srv) =? Workers (cfg srv) then []
  else if len (clients srv) >? Workers (cfg srv)
       then [Workers (cfg srv); Workers (cfg srv)]
       else [Workers (cfg srv)].
Proof.
  intros Hex H.
  destruct (sessionResult env) as [sess|e] eqn:Hs.
  2:{ unfold clientsReset in H. rewrite Hex, Hs in H. simpl in H.
      discriminate. }
  destruct (describeResult env) as [l|e] eqn:Hd.
  2:{ unfold clientsReset in H. rewrite Hex, Hs, Hd in H. simpl in H.
      discriminate. }
  rewrite (clientsReset_connected env srv sess l Hex Hs Hd) in H.
  revert H. connected_cases sess (attemptNow env) srv.
  destruct (connectedTrace_observed sess l srv) as (_ & Hst & _).
  destruct (exitEvents_quiet (Workers (cfg srv))
              (skipn (Z.to_nat (Workers (cfg srv))) (clients srv)))
    as (Hs1 & _).
  destruct (newClientEvents_quiet
              (newClients NewClient
                 (Z.to_nat (Workers (cfg srv) - len (clients srv)))
                 (connected sess (attemptNow env) srv)))
    as (Hs2 & _).
  destruct (len (clients srv) =? Workers (cfg srv)).
  { intros H. inversion H; subst. exact Hst. }
  destruct (Workers (cfg srv) <? 0); [intros H; discriminate|].
  destruct (len (clients srv) >? Workers (cfg srv));
    intros H;
    pose proof (f_equal (fun r : Srv * list Ev * Outcome => snd (fst r)) H)
      as Htr;
    cbn beta in Htr; cbn [deferred fst snd] in Htr; rewrite <- Htr;
    rewrite !stored_app, Hst, ?Hs1, ?Hs2; reflexivity.
Qed.

(** ** Sequences of [failure] calls *)

Lemma spawned_app (t1 t2 : list Ev) :
  spawned (t1 ++ t2) = (spawned t1 + spawned t2)%nat.
Proof. unfold spawned. rewrite flat_map_app, length_app. reflexivity. Qed.

Lemma failuresTrace_fst (calls : list (Z * Z)) :
  forall srv : Srv, fst (failuresTrace calls srv) = failures calls srv.
Proof.
  induction calls as [|[a b] calls IH]; intros srv; simpl; auto.
  destruct (failure a b srv) as [s1 t1] eqn:E.
  specialize (IH s1).
  destruct (failuresTrace calls s1) as [s2 t2]. simpl in *. exact IH.
Qed.

(** One call inside the frame: the count goes up by one and [retry] is
    started when the new count exceeds [maxErrors]. *)
Lemma failure_within_frame (now1 now2 : Z) (srv : Srv) :
  reseting srv = false -> exiting srv = false ->
  now1 - lastError srv <= errorsFrame ->
  min_int64 <= errors srv < max_int64 ->
  failure now1 now2 srv =
  (set_lastError now2 (set_errors (errors srv + 1) srv),
   EvLog (LogErrorsDetected (errors srv + 1)) ::
   (if errors srv + 1 >? maxErrors then [EvGoRetry] else [])).
Proof.
  intros Hr He Hgap Hrange. unfold failure. rewrite Hr, He. cbn [orb].
  rewrite Sub_exceeds
    by (unfold min_int64, max_int64, errorsFrame, Second, Nanosecond; lia).
  replace (now1 - lastError srv >? errorsFrame) with false
    by (symmetry; rewrite Z.gtb_ltb; apply Z.ltb_ge; lia).
  rewrite wrap64_small by (unfold min_int64, max_int64 in *; lia).
  cbn [errors set_errors set_lastError].
  destruct (errors srv + 1 >? maxErrors); reflexivity.
Qed.

(** X7. In a sequence of [failure] calls made while the server is
    neither resetting nor exiting, each one no more than [errorsFrame]
    after the instant recorded before it (a gap equal to [errorsFrame]
    included), the count grows by one per call, and [go srv.retry()] is
    run by every call that leaves the count above [maxErrors], whether
    [failing] is set or not: from a count of 0, [n] calls start
    [n - maxErrors] goroutines when [n > maxErrors] (exactly one at
    [maxErrors + 1] calls) and none otherwise. *)
Theorem failures_within_frame_accumulate (calls : list (Z * Z)) :
  forall srv : Srv,
    reseting srv = false ->
    exiting srv = false ->
    withinFrame (lastError srv) calls ->
    min_int64 <= errors srv ->
    errors srv + Z.of_nat (List.length calls) <= max_int64 ->
    errors (fst (failuresTrace calls srv))
      = errors srv + Z.of_nat (List.length calls) /\
    Z.of_nat (spawned (snd (failuresTrace calls srv)))
      = Z.max 0 (errors srv + Z.of_nat (List.length calls)
                 - Z.max (errors srv) maxErrors).
Proof.
  induction calls as [|[now1 now2] calls IH]; intros srv Hr He Hw Hlo Hhi.
  - simpl. split; lia.
  - simpl in Hw. destruct Hw as [Hgap Hw].
    simpl List.length in *.
    cbn [failuresTrace].
    rewrite (failure_within_frame now1 now2 srv Hr He Hgap) by lia.
    set (srv1 := set_lastError now2 (set_errors (errors srv + 1) srv)).
    specialize (IH srv1 Hr He Hw).
    change (errors srv1) with (errors srv + 1) in IH.
    destruct IH as [IHe IHs]; try lia.
    destruct (failuresTrace calls srv1) as [s2 t2].
    cbn [fst snd] in *. split; [lia|].
    unfold maxErrors in *.
    destruct (errors srv + 1 >? 10) eqn:E; cbn [app].
    + apply Z.gtb_lt in E.
      change (spawned (EvLog (LogErrorsDetected (errors srv + 1))
                       :: EvGoRetry :: t2)) with (S (spawned t2)).
      lia.
    + rewrite Z.gtb_ltb in E. apply Z.ltb_ge in E.
      change (spawned (EvLog (LogErrorsDetected (errors srv + 1)) :: t2))
        with (spawned t2).
      lia.
Qed.

(** X8. A sequence of [failure] calls writes no field of the server but
    [errors] and [lastError], and calls no collaborator but the log and
    [go srv.retry()]: no remote call, no client stopped or created, no
    sleep, nothing stored in [clientCount]. *)
Theorem failures_frame (calls : list (Z * Z)) :
  forall srv : Srv,
    fst (failuresTrace calls srv) =
      set_lastError (lastError (fst (failuresTrace calls srv)))
        (set_errors (errors (fst (failuresTrace calls srv))) srv) /\
    remote (snd (failuresTrace calls srv)) = [] /\
    exits (snd (failuresTrace calls srv)) = [] /\
    created (snd (failuresTrace calls srv)) = [] /\
    sleeps (snd (failuresTrace calls srv)) = [] /\
    stored (snd (failuresTrace calls srv)) = [].
Proof.
  induction calls as [|[now1 now2] calls IH]; intros srv.
  - simpl. destruct srv; repeat split; reflexivity.
  - cbn [failuresTrace].
    assert (H1 : fst (failure now1 now2 srv) =
                 set_lastError (lastError (fst (failure now1 now2 srv)))
                   (set_errors (errors (fst (failure now1 now2 srv))) srv) /\
                 remote (snd (failure now1 now2 srv)) = [] /\
                 exits (snd (failure now1 now2 srv)) = [] /\
                 created (snd (failure now1 now2 srv)) = [] /\
                 sleeps (snd (failure now1 now2 srv)) = [] /\
                 stored (snd (failure now1 now2 srv)) = []).
    { unfold failure. destruct (reseting srv || exiting srv).
      - destruct srv; repeat split; reflexivity.
      - destruct (_ >? maxErrors);
          destruct (Sub now1 (lastError srv) >? errorsFrame);
          destruct srv; repeat split; reflexivity. }
    destruct (failure now1 now2 srv) as [s1 t1]. cbn [fst snd] in H1.
    destruct H1 as (Hs1 & Hr1 & Hx1 & Hc1 & Hsl1 & Hst1).
    specialize (IH s1).
    destruct (failuresTrace calls s1) as [s2 t2]. cbn [fst snd] in *.
    destruct IH as (Hs2 & Hr2 & Hx2 & Hc2 & Hsl2 & Hst2).
    rewrite remote_app, exits_app, created_app, sleeps_app, stored_app,
      Hr1, Hr2, Hx1, Hx2, Hc1, Hc2, Hsl1, Hsl2, Hst1, Hst2.
    repeat split; try reflexivity.
    rewrite Hs2 at 1. rewrite Hs1. destruct srv; reflexivity.
Qed.

(** X9. While the server is resetting or exiting, any sequence of
    [failure] calls leaves the server exactly as it is, writes no log
    line and starts no [retry]. *)
Theorem failures_ignored_while_reseting_or_exiting (calls : list (Z * Z)) :
  forall srv : Srv,
    reseting srv || exiting srv = true ->
    failuresTrace calls srv = (srv, []).
Proof.
  induction calls as [|[now1 now2] calls IH]; intros srv H.
  - reflexivity.
  - cbn [failuresTrace]. unfold failure. rewrite H.
    rewrite (IH srv H). reflexivity.
Qed.

(** ** Runs of [retry] *)

(** A failed attempt, in full. *)
Lemma clientsReset_fails (env : Attempt Session) (srv : Srv) :
  exiting srv = false ->
  attemptFails env = true ->
  exists tr e,
    clientsReset NewClient env srv =
      (mkServer (cfg srv) (clients srv)
         (match sessionResult env with
          | inl sess => Some (mkFirehose sess (Region (cfg srv)))
          | inr _ => awsSvc srv
          end)
         (lastConnection srv) (attemptNow env) (wrap64 (errors srv + 1))
         false false (failing srv),
       tr, RetErr e) /\
    exits tr = [] /\ created tr = [] /\ stored tr = [].
Proof.
  intros Hex Hf. unfold clientsReset. rewrite Hex. unfold attemptFails in Hf.
  destruct (sessionResult env) as [sess|e1].
  - destruct (describeResult env) as [l|e1]; [discriminate|].
    eexists _, _. split.
    + unfold deferred. unfold_setters. rewrite Hex. reflexivity.
    + destruct (negb _); simpl; auto.
  - eexists _, _. split.
    + unfold deferred. unfold_setters. rewrite Hex. reflexivity.
    + destruct (negb _); simpl; auto.
Qed.

Lemma retryIter_fails_state (env : Attempt Session) (tries : Z) (srv : Srv) :
  exiting srv = false ->
  attemptFails env = true ->
  exists tr1,
    retryIter NewClient env tries srv =
      (mkServer (cfg srv) (clients srv)
         (match sessionResult env with
          | inl sess => Some (mkFirehose sess (Region (cfg srv)))
          | inr _ => awsSvc srv
          end)
         (lastConnection srv) (attemptNow env) (wrap64 (errors srv + 1))
         false false (failing srv),
       tr1, IterAgain (wrap64 (tries + 1))) /\
    exits tr1 = [] /\ created tr1 = [] /\ stored tr1 = [].
Proof.
  intros Hex Hf.
  destruct (clientsReset_fails env srv Hex Hf)
    as (tr & e & Hc & Hx & Hcr & Hst).
  unfold retryIter. rewrite Hc.
  destruct (wrap64 (tries + 1) >=? maxConnectionsTries);
    eexists; (split; [reflexivity|]);
    rewrite !exits_app, !created_app, !stored_app, Hx, Hcr, Hst;
    repeat split; reflexivity.
Qed.

Lemma last_cons_default {A : Type} (l : list A) (x d : A) :
  last (x :: l) d = last l x.
Proof.
  revert x d. induction l as [|y l IH]; intros x d; [reflexivity|].
  change (last (x :: y :: l) d) with (last (y :: l) d).
  rewrite (IH y d), (IH y x). reflexivity.
Qed.

Lemma retryLoop_all_fail_state (envs : list (Attempt Session)) :
  forall (tries : Z) (srv : Srv),
    exiting srv = false ->
    Forall (fun env => attemptFails env = true) envs ->
    min_int64 <= errors srv ->
    errors srv + Z.of_nat (List.length envs) <= max_int64 ->
    clients (fst (fst (retryLoop NewClient envs tries srv))) = clients srv /\
    cfg (fst (fst (retryLoop NewClient envs tries srv))) = cfg srv /\
    failing (fst (fst (retryLoop NewClient envs tries srv))) = failing srv /\
    lastConnection (fst (fst (retryLoop NewClient envs tries srv)))
      = lastConnection srv /\
    errors (fst (fst (retryLoop NewClient envs tries srv)))
      = errors srv + Z.of_nat (List.length envs) /\
    lastError (fst (fst (retryLoop NewClient envs tries srv)))
      = last (map attemptNow envs) (lastError srv) /\
    exits (snd (fst (retryLoop NewClient envs tries srv))) = [] /\
    created (snd (fst (retryLoop NewClient envs tries srv))) = [] /\
    stored (snd (fst (retryLoop NewClient envs tries srv))) = [].
Proof.
  induction envs as [|env rest IH]; intros tries srv Hex Hall Hlo Hhi.
  - simpl. repeat split; auto; lia.
  - inversion Hall as [|? ? Hf Hrest]; subst.
    simpl List.length in *.
    destruct (retryIter_fails_state env tries srv Hex Hf)
      as (tr1 & Hit & Hx & Hcr & Hst).
    rewrite (wrap64_small (errors srv + 1)) in Hit
      by (unfold min_int64, max_int64 in *; lia).
    cbn [retryLoop]. rewrite Hit.
    match goal with |- context [retryLoop NewClient rest ?t ?s1] =>
      specialize (IH t s1 eq_refl Hrest); set (srv1 := s1) in *;
      set (tries1 := t) in * end.
    cbn [errors] in IH.
    destruct IH as (I1 & I2 & I3 & I4 & I5 & I6 & I7 & I8 & I9);
      [unfold srv1; cbn [errors]; lia..|].
    cbn [map]. rewrite last_cons_default.
    destruct (retryLoop NewClient rest tries1 srv1) as [[s2 t2] ex].
    cbn [fst snd] in *.
    rewrite !exits_app, !created_app, !stored_app, Hx, Hcr, Hst, I7, I8, I9.
    rewrite I1, I2, I3, I4, I5, I6.
    unfold srv1; cbn [errors lastError clients cfg failing lastConnection].
    repeat split; auto; lia.
Qed.

(** X10. While every attempt fails (and [exiting] is not set), a run of
    [retry] never touches the clients: the slice is as on entry, [Exit]
    and [NewClient] are not called and [clientCount] is not stored. Each
    failed attempt adds one to [errors], [lastError] is the clock of the
    last attempt, [failing] stays set and [lastConnection] is as on
    entry. *)
Theorem retry_failing_attempts_keep_pool
  (envs : list (Attempt Session)) (srv : Srv) :
  failing srv = false ->
  exiting srv = false ->
  Forall (fun env => attemptFails env = true) envs ->
  min_int64 <= errors srv ->
  errors srv + Z.of_nat (List.length envs) <= max_int64 ->
  clients (fst (fst (retry NewClient envs srv))) = clients srv /\
  exits (snd (fst (retry NewClient envs srv))) = [] /\
  created (snd (fst (retry NewClient envs srv))) = [] /\
  stored (snd (fst (retry NewClient envs srv))) = [] /\
  errors (fst (fst (retry NewClient envs srv)))
    = errors srv + Z.of_nat (List.length envs) /\
  lastError (fst (fst (retry NewClient envs srv)))
    = last (map attemptNow envs) (lastError srv) /\
  failing (fst (fst (retry NewClient envs srv))) = true /\
  lastConnection (fst (fst (retry NewClient envs srv))) = lastConnection srv.
Proof.
  intros Hfl Hex Hall Hlo Hhi. unfold retry. rewrite Hfl.
  destruct (retryLoop_all_fail_state envs 0 (set_failing true srv) Hex Hall
              Hlo Hhi)
    as (I1 & I2 & I3 & I4 & I5 & I6 & I7 & I8 & I9).
  repeat split; assumption.
Qed.

Lemma total_app (l1 l2 : list Z) : total (l1 ++ l2) = total l1 + total l2.
Proof.
  unfold total. induction l1 as [|x l1 IH]; simpl; [reflexivity|].
  rewrite IH. lia.
Qed.

Lemma total_backoff (n : nat) :
  total (map (fun k => backoff (0 + Z.of_nat k)) (seq 1 n)) =
  if Z.of_nat n <? maxConnectionsTries
  then Z.of_nat n * connectionRetry
  else (2 * Z.of_nat n - (maxConnectionsTries - 1)) * connectionRetry.
Proof.
  induction n as [|n IH].
  - reflexivity.
  - rewrite seq_S, map_app, total_app, IH.
    cbn [map total fold_right Nat.add]. unfold backoff.
    rewrite Z.geb_leb.
    unfold maxConnectionsTries, connectionRetry, Second, Nanosecond.
    destruct (Z.of_nat n <? 3) eqn:E1;
      destruct (Z.of_nat (S n) <? 3) eqn:E2;
      destruct (3 <=? 0 + Z.of_nat (S n)) eqn:E3;
      try apply Z.ltb_lt in E1; try apply Z.ltb_ge in E1;
      try apply Z.ltb_lt in E2; try apply Z.ltb_ge in E2;
      try apply Z.leb_le in E3; try apply Z.leb_gt in E3; lia.
Qed.

(** X11. The time a run of [retry] has slept after [n] attempts that all
    failed: [n] times [connectionRetry] while [n < maxConnectionsTries],
    and [(2n - (maxConnectionsTries - 1))] times [connectionRetry] from
    then on; with the constants of the package, 5 s and 10 s for one and
    two failures, then 10 s more for every further failure. *)
Theorem retry_total_backoff (envs : list (Attempt Session)) (srv : Srv) :
  failing srv = false ->
  exiting srv = false ->
  Forall (fun env => attemptFails env = true) envs ->
  Z.of_nat (List.length envs) <= max_int64 ->
  total (sleeps (snd (fst (retry NewClient envs srv)))) =
  if Z.of_nat (List.length envs) <? maxConnectionsTries
  then Z.of_nat (List.length envs) * connectionRetry
  else (2 * Z.of_nat (List.length envs) - (maxConnectionsTries - 1))
       * connectionRetry.
Proof.
  intros Hfl Hex Hall Hmax. unfold retry. rewrite Hfl.
  destruct (retryLoop_all_fail envs 0 (set_failing true srv))
    as [_ Hs]; auto; try lia.
  rewrite Hs. apply total_backoff.
Qed.

(** [clientsReset] never writes [cfg] or [exiting], and leaves
    [reseting] false when it was false. *)
Lemma clientsReset_keeps (env : Attempt Session) (srv : Srv) :
  cfg (fst (fst (clientsReset NewClient env srv))) = cfg srv /\
  exiting (fst (fst (clientsReset NewClient env srv))) = exiting srv /\
  (reseting srv = false ->
   reseting (fst (fst (clientsReset NewClient env srv))) = false).
Proof.
  unfold clientsReset. destruct (exiting srv) eqn:Hex; [simpl; auto|].
  destruct (sessionResult env) as [sess|e].
  2:{ simpl. rewrite Hex. auto. }
  destruct (describeResult env) as [l|e].
  2:{ simpl. rewrite Hex. auto. }
  match goal with |- context [reconcile _ ?s ?t] =>
    pose proof (reconcile_frame s t) as Hfr;
    destruct (reconcile NewClient s t) as [[s1 t1] o1] end.
  cbn [deferred fst snd] in *. rewrite Hfr. simpl. rewrite Hex. auto.
Qed.

Lemma retryIter_server (env : Attempt Session) (tries : Z) (srv : Srv) :
  fst (fst (retryIter NewClient env tries srv)) =
  fst (fst (clientsReset NewClient env srv)).
Proof.
  unfold retryIter.
  destruct (clientsReset NewClient env srv) as [[s1 t1] [|e| |]];
    try reflexivity.
  destruct (_ >=? _); reflexivity.
Qed.

Lemma retryIter_return_nil (env : Attempt Session) (tries : Z)
      (srv srv1 : Srv) (tr : list Ev) :
  retryIter NewClient env tries srv = (srv1, tr, IterReturn) ->
  clientsReset NewClient env srv = (srv1, tr, RetNil).
Proof.
  unfold retryIter.
  destruct (clientsReset NewClient env srv) as [[s1 t1] [|e| |]];
    try discriminate.
  - intros H. inversion H; subst. reflexivity.
  - destruct (_ >=? _); discriminate.
Qed.

Lemma retryLoop_returned_flags (envs : list (Attempt Session)) :
  forall (tries : Z) (srv srv' : Srv) (tr : list Ev),
    retryLoop NewClient envs tries srv = (srv', tr, RetryReturned) ->
    exiting srv' = exiting srv /\
    cfg srv' = cfg srv /\
    failing srv' = if exiting srv then failing srv else false.
Proof.
  induction envs as [|env rest IH]; intros tries srv srv' tr H.
  - simpl in H. discriminate.
  - simpl in H.
    pose proof (retryIter_server env tries srv) as Hsrv.
    destruct (clientsReset_keeps env srv) as (Hc & He & _).
    destruct (retryIter NewClient env tries srv) as [[s1 t1] [| |t']] eqn:E;
      cbn [fst] in Hsrv.
    + injection H as H1 H2. subst srv' tr.
      rewrite (clientsReset_nil_failing _ _ _ _ (retryIter_return_nil _ _ _ _ _ E)).
      rewrite Hsrv. auto.
    + discriminate.
    + destruct (retryIter_again_flags _ _ _ _ _ _ E) as [He1 Hf1].
      destruct (retryLoop NewClient rest t' s1) as [[s2 t2] ex] eqn:E2.
      injection H as H1 H2 H3. subst srv' tr ex.
      destruct (IH _ _ _ _ E2) as (I1 & I2 & I3).
      rewrite I1, I2, I3, He1, Hf1, Hsrv, Hc. auto.
Qed.

(** The first two events of a call made while [exiting] is not set. *)
Lemma clientsReset_trace_head (env : Attempt Session) (srv : Srv) :
  exiting srv = false ->
  exists more,
    snd (fst (clientsReset NewClient env srv)) =
    EvLog (LogReload (StreamName (cfg srv))) :: sessionEvent (cfg srv) :: more.
Proof.
  intros Hex.
  destruct (sessionResult env) as [sess|e] eqn:Hs.
  - destruct (describeResult env) as [l|e] eqn:Hd.
    + rewrite (clientsReset_connected env srv sess l Hex Hs Hd).
      connected_cases sess (attemptNow env) srv.
      destruct (len (clients srv) =? Workers (cfg srv));
        [eexists; reflexivity|].
      destruct (Workers (cfg srv) <? 0); [eexists; reflexivity|].
      destruct (len (clients srv) >? Workers (cfg srv));
        eexists; reflexivity.
    + unfold clientsReset. rewrite Hex, Hs, Hd. eexists. reflexivity.
  - unfold clientsReset. rewrite Hex, Hs. eexists. reflexivity.
Qed.

(** X12. [retry] after [retry]: when a run of [retry] entered with
    [failing] and [exiting] not set has returned, [failing] is not set any
    more, so a further goroutine of [retry] (one more [go srv.retry()] of
    an earlier [failure] call) is not turned away: it runs
    [clientsReset] again, starting with the reload log line and a new
    session. *)
Theorem retry_again_reconnects
  (envs1 : list (Attempt Session)) (srv srv1 : Srv) (tr1 : list Ev) :
  failing srv = false ->
  exiting srv = false ->
  retry NewClient envs1 srv = (srv1, tr1, RetryReturned) ->
  failing srv1 = false /\
  forall env rest, exists more,
    snd (fst (retry NewClient (env :: rest) srv1)) =
    EvLog (LogReload (StreamName (cfg srv1))) :: sessionEvent (cfg srv1) :: more.
Proof.
  intros Hfl Hex H. unfold retry in H. rewrite Hfl in H.
  destruct (retryLoop_returned_flags _ _ _ _ _ H) as (He & Hc & Hf).
  cbn [exiting set_failing] in He, Hf. rewrite Hex in *.
  split; [exact Hf|].
  intros env rest. unfold retry. rewrite Hf. cbn [retryLoop].
  set (s := set_failing true srv1).
  assert (Hes : exiting s = false) by exact He.
  destruct (clientsReset_trace_head env s Hes) as [more Hmore].
  change (cfg s) with (cfg srv1) in Hmore.
  unfold retryIter.
  destruct (clientsReset NewClient env s) as [[s1 t1] o] eqn:E.
  cbn [fst snd] in Hmore. subst t1.
  destruct o as [|e| |]; try (eexists; reflexivity).
  destruct (_ >=? _);
    destruct (retryLoop NewClient rest _ s1) as [[s2 t2] ex];
    eexists; reflexivity.
Qed.

(** ** More on the goroutines and the mutex *)

Lemma failure_keeps (now1 now2 : Z) (srv : Srv) :
  cfg (fst (failure now1 now2 srv)) = cfg srv /\
  failing (fst (failure now1 now2 srv)) = failing srv.
Proof.
  unfold failure. destruct (reseting srv || exiting srv); [auto|].
  destruct (_ >? maxErrors);
    destruct (Sub now1 (lastError srv) >? errorsFrame); auto.
Qed.

(** X13. In every state reached by the goroutines of [failure] and
    [retry] from a server with a free mutex: [cfg] and [exiting] are as
    at the start; if [reseting] was false at the start it is false (so a
    call of [failure], which runs under the mutex, never meets a
    reconciliation in progress and is never turned away by
    [reseting]); and while the mutex is held by the loop of [retry],
    [failing] is set. *)
Theorem reachable_flags (srv0 : Srv) (s : System Client Session) :
  reachable NewClient srv0 s ->
  cfg (server s) = cfg srv0 /\
  exiting (server s) = exiting srv0 /\
  (reseting srv0 = false -> reseting (server s) = false) /\
  (locked s = true -> failing (server s) = true).
Proof.
  induction 1 as [|s l s' _ IH Hstep].
  - cbn. repeat split; auto. discriminate.
  - destruct IH as (Ic & Ie & Ir & If).
    inversion Hstep; subst; cbn [server locked] in *.
    + repeat split; auto.
    + destruct (failure_flags now1 now2 srv) as [Hr He].
      destruct (failure_keeps now1 now2 srv) as [Hc _].
      rewrite Hr, He, Hc. repeat split; auto. discriminate.
    + repeat split; auto.
    + repeat split; auto.
    + pose proof (retryIter_server env tries srv) as Hsrv.
      rewrite H in Hsrv. cbn [fst] in Hsrv. subst srv1.
      destruct (clientsReset_keeps env srv) as (Hc & He & Hr).
      rewrite Hc, He. repeat split; auto. discriminate.
    + pose proof (retryIter_server env tries srv) as Hsrv.
      destruct (retryIter_again_flags _ _ _ _ _ _ H) as [_ Hf].
      rewrite H in Hsrv. cbn [fst] in Hsrv. subst srv1.
      destruct (clientsReset_keeps env srv) as (Hc & He & Hr).
      rewrite Hc, He. repeat split; auto.
      intros _. rewrite Hf. auto.
Qed.

(** What a nil outcome outside [exiting] leaves behind. *)
Lemma clientsReset_nil_state (env : Attempt Session) (srv srv' : Srv)
      (tr : list Ev) :
  exiting srv = false ->
  clientsReset NewClient env srv = (srv', tr, RetNil) ->
  len (clients srv') = Workers (cfg srv') /\
  errors srv' = 0 /\ reseting srv' = false /\ failing srv' = false.
Proof.
  intros Hex H.
  destruct (sessionResult env) as [sess|e] eqn:Hs.
  2:{ unfold clientsReset in H. rewrite Hex, Hs in H. simpl in H.
      discriminate. }
  destruct (describeResult env) as [l|e] eqn:Hd.
  2:{ unfold clientsReset in H. rewrite Hex, Hs, Hd in H. simpl in H.
      discriminate. }
  rewrite (clientsReset_connected env srv sess l Hex Hs Hd) in H.
  revert H. connected_cases sess (attemptNow env) srv.
  assert (Hnn : 0 <= len (clients srv)) by (unfold len; lia).
  destruct (len (clients srv) =? Workers (cfg srv)) eqn:Eeq.
  { apply Z.eqb_eq in Eeq. intros H. inversion H; subst.
    repeat split; auto. }
  apply Z.eqb_neq in Eeq.
  destruct (Workers (cfg srv) <? 0) eqn:Eneg; [intros H; discriminate|].
  apply Z.ltb_ge in Eneg.
  destruct (len (clients srv) >? Workers (cfg srv)) eqn:Egt;
    intros H; inversion H; subst; clear H; repeat split; auto.
  - apply Z.gtb_lt in Egt.
    cbn. unfold len in *. rewrite length_firstn. lia.
  - rewrite Z.gtb_ltb in Egt. apply Z.ltb_ge in Egt.
    cbn. unfold len in *. rewrite length_app, newClients_length. lia.
Qed.

(** X2. After a call of [clientsReset] that returns nil while [exiting]
    is not set, the number of clients equals the configured number of
    workers, and the server is the one on entry with: the new slice of
    clients, [awsSvc] built from the new session, [lastConnection] set to
    the clock, [errors] 0, and [reseting] and [failing] false. [cfg],
    [lastError] and [exiting] are as on entry. *)
Theorem clientsReset_nil_postcondition
  (env : Attempt Session) (srv srv' : Srv) (tr : list Ev) :
  exiting srv = false ->
  clientsReset NewClient env srv = (srv', tr, RetNil) ->
  len (clients srv') = Workers (cfg srv) /\
  exists sess,
    sessionResult env = inl sess /\
    srv' = mkServer (cfg srv) (clients srv')
             (Some (mkFirehose sess (Region (cfg srv))))
             (attemptNow env) (lastError srv) 0 false false false.
Proof.
  intros Hex H.
  destruct (clientsReset_nil_state env srv srv' tr Hex H) as (Hlen & _).
  destruct (clientsReset_keeps env srv) as (Hcfg & _).
  rewrite H in Hcfg. cbn [fst] in Hcfg. rewrite Hcfg in Hlen.
  split; [exact Hlen|].
  destruct (sessionResult env) as [sess|e] eqn:Hs.
  2:{ unfold clientsReset in H. rewrite Hex, Hs in H. simpl in H.
      discriminate. }
  destruct (describeResult env) as [l|e] eqn:Hd.
  2:{ unfold clientsReset in H. rewrite Hex, Hs, Hd in H. simpl in H.
      discriminate. }
  exists sess. split; [reflexivity|].
  rewrite (clientsReset_connected env srv sess l Hex Hs Hd) in H.
  pose proof (reconcile_frame (connected sess (attemptNow env) srv)
                (connectedTrace sess l srv)) as Hfr.
  destruct (reconcile NewClient (connected sess (attemptNow env) srv)
              (connectedTrace sess l srv)) as [[s1 t1] o1].
  cbn [deferred fst snd] in *.
  injection H as H1 H2 H3. subst srv'.
  generalize dependent (clients s1). intros cl Hfr. subst s1.
  destruct srv as [c cl0 a lc le er rs ex fl].
  cbn in Hex. subst ex. reflexivity.
Qed.

Lemma retryLoop_returned_state (envs : list (Attempt Session)) :
  forall (tries : Z) (srv srv' : Srv) (tr : list Ev),
    exiting srv = false ->
    retryLoop NewClient envs tries srv = (srv', tr, RetryReturned) ->
    len (clients srv') = Workers (cfg srv') /\
    errors srv' = 0 /\ reseting srv' = false /\ failing srv' = false.
Proof.
  induction envs as [|env rest IH]; intros tries srv srv' tr Hex H.
  - simpl in H. discriminate.
  - simpl in H.
    destruct (retryIter NewClient env tries srv) as [[s1 t1] [| |t']] eqn:E.
    + injection H as H1 H2. subst srv' tr.
      exact (clientsReset_nil_state env srv s1 t1 Hex
               (retryIter_return_nil _ _ _ _ _ E)).
    + discriminate.
    + destruct (retryIter_again_flags _ _ _ _ _ _ E) as [He1 _].
      destruct (retryLoop NewClient rest t' s1) as [[s2 t2] ex] eqn:E2.
      injection H as H1 H2 H3. subst srv' tr ex.
      apply (IH t' s1 s2 t2); [congruence|exact E2].
Qed.

(** X14. When a run of [retry] entered with [failing] and [exiting] not
    set returns, after however many failed attempts, the pool is
    reconciled: the number of clients equals the configured number of
    workers, [errors] is 0 and [failing] and [reseting] are false. *)
Theorem retry_returns_reconciled
  (envs : list (Attempt Session)) (srv srv' : Srv) (tr : list Ev) :
  failing srv = false ->
  exiting srv = false ->
  retry NewClient envs srv = (srv', tr, RetryReturned) ->
  len (clients srv') = Workers (cfg srv') /\
  errors srv' = 0 /\ reseting srv' = false /\ failing srv' = false.
Proof.
  intros Hfl Hex H. unfold retry in H. rewrite Hfl in H.
  exact (retryLoop_returned_state envs 0 (set_failing true srv) srv' tr Hex H).
Qed.

(** X15. Errors that are each more than [errorsFrame] apart never start
    a reconnection: in such a sequence of [failure] calls (server neither
    resetting nor exiting) no call runs [go srv.retry()], however many
    there are and whatever the count was before, and at the end of such
    a sequence, when it is not empty, the count is 1. *)
Theorem failures_beyond_frame_never_retry (calls : list (Z * Z)) :
  forall srv : Srv,
    reseting srv = false ->
    exiting srv = false ->
    beyondFrame (lastError srv) calls ->
    spawned (snd (failuresTrace calls srv)) = 0%nat /\
    (calls <> [] -> errors (fst (failuresTrace calls srv)) = 1).
Proof.
  induction calls as [|[now1 now2] calls IH]; intros srv Hr He Hb.
  - split; [reflexivity|congruence].
  - simpl in Hb. destruct Hb as [Hgap Hb].
    cbn [failuresTrace].
    assert (Hf : failure now1 now2 srv =
                 (set_lastError now2 (set_errors 1 srv),
                  [EvLog (LogErrorsDetected 1)])).
    { unfold failure. rewrite Hr, He. cbn [orb].
      rewrite Sub_exceeds
        by (unfold min_int64, max_int64, errorsFrame, Second, Nanosecond; lia).
      replace (now1 - lastError srv >? errorsFrame) with true
        by (symmetry; apply Z.gtb_lt; lia).
      reflexivity. }
    rewrite Hf.
    specialize (IH (set_lastError now2 (set_errors 1 srv)) Hr He Hb).
    destruct IH as [IHs IHe].
    destruct (failuresTrace calls (set_lastError now2 (set_errors 1 srv)))
      as [s2 t2] eqn:E.
    cbn [fst snd] in *. split.
    + exact IHs.
    + intros _. destruct calls as [|c calls].
      * simpl in E. inversion E; subst. reflexivity.
      * apply IHe. discriminate.
Qed.

End Theory.

(** * The properties on the concrete pool *)

Lemma exCalled_reachable : reachable exNewClient exThreshold exCalled.
Proof.
  eapply reach_step; [apply reach_init|].
  exact (step_call exNewClient exThreshold false []).
Qed.

Lemma exCalled_step :
  step exNewClient exCalled (LFailure 100 101) exSpawned.
Proof. exact (step_failure exNewClient exThreshold [] [] 100 101). Qed.

Lemma exBlocked_reachable : reachable exNewClient exThreshold exBlocked.
Proof.
  eapply reach_step.
  - eapply reach_step.
    + eapply reach_step; [apply exCalled_reachable|apply exCalled_step].
    + exact (step_retry_enter exNewClient
               (fst (failure 100 101 exThreshold)) [Returned] [] eq_refl).
  - exact (step_call exNewClient _ true [Returned; RetryInLoop 0]).
Qed.

(** C1, as stated, fails: from 5 clients to a target of 2, [Exit] is called
    at indices 4, 3 and 2 and clients 0 and 1 remain, not indices 4 and 3
    with clients 0, 1, 2 remaining. *)
Lemma clientsReset_5_to_2_counterexample :
  map fst (exits (snd (fst (clientsReset exNewClient (exOk 7)
                              (exServer 2 [0; 1; 2; 3; 4]%nat)))))
    = [4; 3; 2] /\
  clients (fst (fst (clientsReset exNewClient (exOk 7)
                       (exServer 2 [0; 1; 2; 3; 4]%nat))))
    = [0; 1]%nat /\
  ~ (map fst (exits (snd (fst (clientsReset exNewClient (exOk 7)
                                 (exServer 2 [0; 1; 2; 3; 4]%nat)))))
       = [4; 3] /\
     clients (fst (fst (clientsReset exNewClient (exOk 7)
                          (exServer 2 [0; 1; 2; 3; 4]%nat))))
       = [0; 1; 2]%nat).
Proof.
  split; [reflexivity|]. split; [reflexivity|].
  intros [H _]. vm_compute in H. discriminate.
Qed.

Lemma clientsReset_shrinks_from_tail_witness :
  exiting (exServer 2 [0; 1; 2; 3; 4]%nat) = false /\
  attemptFails (exOk 7) = false /\
  0 <= Workers (cfg (exServer 2 [0; 1; 2; 3; 4]%nat))
    < len (clients (exServer 2 [0; 1; 2; 3; 4]%nat)) /\
  exits (snd (fst (clientsReset exNewClient (exOk 7)
                     (exServer 2 [0; 1; 2; 3; 4]%nat))))
    = [(4, 4%nat); (3, 3%nat); (2, 2%nat)].
Proof.
  split; [reflexivity|]. split; [reflexivity|].
  split; [vm_compute; split; [discriminate|reflexivity]|].
  refine (eq_trans
            (proj1 (proj2 (proj2
               (clientsReset_shrinks_from_tail exNewClient (exOk 7)
                  (exServer 2 [0; 1; 2; 3; 4]%nat) eq_refl eq_refl _)))) _).
  - vm_compute. split; [discriminate|reflexivity].
  - reflexivity.
Defined.

(** C2, as stated, fails at the third failed attempt: with
    [maxConnectionsTries = 3] the claim gives the sleep [connectionRetry]
    for attempt 3, and the loop sleeps twice [connectionRetry]. *)
Lemma retry_third_sleep_counterexample :
  nth_error (sleeps (snd (fst (retry exNewClient
                                 [exSessionErr 1; exSessionErr 2;
                                  exSessionErr 3]
                                 (exServer 1 [0]%nat))))) 2
    = Some (2 * connectionRetry) /\
  nth_error (sleeps (snd (fst (retry exNewClient
                                 [exSessionErr 1; exSessionErr 2;
                                  exSessionErr 3]
                                 (exServer 1 [0]%nat))))) 2
    <> Some (if 3 <=? maxConnectionsTries
             then connectionRetry else 2 * connectionRetry).
Proof.
  split; [reflexivity|]. vm_compute. discriminate.
Qed.

Lemma retry_backoff_two_tiers_witness :
  failing (exServer 1 [0]%nat) = false /\
  exiting (exServer 1 [0]%nat) = false /\
  Forall (fun env => attemptFails env = true)
         [exSessionErr 1; exDescribeErr 2; exSessionErr 3; exSessionErr 4] /\
  nth_error (sleeps (snd (fst (retry exNewClient
               [exSessionErr 1; exDescribeErr 2; exSessionErr 3; exSessionErr 4]
               (exServer 1 [0]%nat))))) (3 - 1)
    = Some (if Z.of_nat 3 <? maxConnectionsTries
            then connectionRetry else 2 * connectionRetry).
Proof.
  assert (Hall : Forall (fun env : Attempt exSession => attemptFails env = true)
                   [exSessionErr 1; exDescribeErr 2; exSessionErr 3;
                    exSessionErr 4])
    by (repeat constructor).
  split; [reflexivity|]. split; [reflexivity|]. split; [exact Hall|].
  apply (retry_backoff_two_tiers exNewClient
           [exSessionErr 1; exDescribeErr 2; exSessionErr 3; exSessionErr 4]
           (exServer 1 [0]%nat) 3 eq_refl eq_refl Hall).
  - vm_compute. discriminate.
  - simpl. lia.
Defined.

Lemma failure_window_reset_witness :
  reseting exThreshold = false /\
  exiting exThreshold = false /\
  20000000200 - 101 > errorsFrame /\
  errors (failures ([(50, 51)] ++ [(100, 101); (20000000200, 20000000201)])
                   exThreshold) = 1.
Proof.
  split; [reflexivity|]. split; [reflexivity|]. split; [reflexivity|].
  apply (failure_window_reset [(50, 51)] 100 101 20000000200 20000000201
           exThreshold eq_refl eq_refl).
  reflexivity.
Defined.

(** C4, as stated, fails on the [exiting] short-circuit: [clientsReset]
    returns nil to the loop, [retry] returns, and [failing] is true. *)
Lemma retry_exiting_leaves_failing_counterexample :
  snd (clientsReset exNewClient (exOk 5) (set_failing true exExiting))
    = RetNil /\
  snd (retry exNewClient [exOk 5] exExiting) = RetryReturned /\
  failing (fst (fst (retry exNewClient [exOk 5] exExiting))) <> false.
Proof.
  split; [reflexivity|]. split; [reflexivity|]. vm_compute. discriminate.
Qed.

Lemma retry_returns_when_clientsReset_nil_witness :
  failing (exServer 1 [0; 1]%nat) = false /\
  snd (retryLoop exNewClient [exSessionErr 1; exDescribeErr 2] 0
         (set_failing true (exServer 1 [0; 1]%nat))) = RetryRunning 2 /\
  snd (retry exNewClient
         ([exSessionErr 1; exDescribeErr 2] ++ exOk 3 :: [exSessionErr 4])
         (exServer 1 [0; 1]%nat)) = RetryReturned /\
  failing (fst (fst (retry exNewClient
         ([exSessionErr 1; exDescribeErr 2] ++ exOk 3 :: [exSessionErr 4])
         (exServer 1 [0; 1]%nat)))) = false.
Proof.
  split; [reflexivity|]. split; [vm_compute; reflexivity|].
  destruct (retryLoop exNewClient [exSessionErr 1; exDescribeErr 2] 0
              (set_failing true (exServer 1 [0; 1]%nat)))
    as [[srvk trk] ex] eqn:Hpre.
  assert (Hex : ex = RetryRunning 2)
    by (vm_compute in Hpre; congruence).
  rewrite Hex in Hpre.
  destruct (clientsReset exNewClient (exOk 3) srvk) as [[srv1 tr1] o] eqn:Hnil.
  assert (Ho : o = RetNil).
  { assert (Hk : srvk = fst (fst (retryLoop exNewClient
                                    [exSessionErr 1; exDescribeErr 2] 0
                                    (set_failing true (exServer 1 [0; 1]%nat)))))
      by (rewrite Hpre; reflexivity).
    rewrite Hk in Hnil. vm_compute in Hnil. congruence. }
  rewrite Ho in Hnil.
  destruct (retry_returns_when_clientsReset_nil exNewClient
              [exSessionErr 1; exDescribeErr 2] [exSessionErr 4] (exOk 3)
              (exServer 1 [0; 1]%nat) srvk srv1 trk tr1 2 eq_refl Hpre Hnil)
    as [Hret Hfl].
  rewrite Hret. split; [reflexivity|exact Hfl].
Defined.

Lemma clientsReset_exiting_returns_nil_untouched_witness :
  exiting exExiting = true /\
  clientsReset exNewClient (exOk 5) exExiting = (exExiting, [], RetNil).
Proof.
  split; [reflexivity|].
  exact (proj1 (clientsReset_exiting_returns_nil_untouched
                  exNewClient (exOk 5) exExiting eq_refl)).
Defined.

(** C6, as stated, fails on the [exiting] short-circuit: [clientsReset]
    returns nil and the error counter keeps its value 7. *)
Lemma clientsReset_exiting_keeps_errors_counterexample :
  snd (clientsReset exNewClient (exOk 5) exExiting) = RetNil /\
  errors (fst (fst (clientsReset exNewClient (exOk 5) exExiting))) = 7 /\
  errors (fst (fst (clientsReset exNewClient (exOk 5) exExiting))) <> 0.
Proof.
  split; [reflexivity|]. split; [reflexivity|]. vm_compute. discriminate.
Qed.

Lemma clientsReset_nil_not_exiting_errors_zero_witness :
  exiting exThreshold = false /\
  snd (clientsReset exNewClient (exOk 5) exThreshold) = RetNil /\
  errors (fst (fst (clientsReset exNewClient (exOk 5) exThreshold))) = 0.
Proof.
  split; [reflexivity|]. split; [reflexivity|].
  exact (clientsReset_nil_not_exiting_errors_zero exNewClient (exOk 5)
           exThreshold
           (fst (fst (clientsReset exNewClient (exOk 5) exThreshold)))
           (snd (fst (clientsReset exNewClient (exOk 5) exThreshold)))
           eq_refl eq_refl).
Defined.

Lemma clientsReset_grows_at_tail_witness :
  exiting (exServer 5 [0; 1]%nat) = false /\
  attemptFails (exOk 7) = false /\
  len (clients (exServer 5 [0; 1]%nat)) < Workers (cfg (exServer 5 [0; 1]%nat))
  /\
  clients (fst (fst (clientsReset exNewClient (exOk 7)
                       (exServer 5 [0; 1]%nat))))
    = [0; 1]%nat ++ [102; 103; 104]%nat /\
  Z.of_nat (List.length (created (snd (fst (clientsReset exNewClient (exOk 7)
                                              (exServer 5 [0; 1]%nat))))))
    = 5 - 2.
Proof.
  split; [reflexivity|]. split; [reflexivity|]. split; [reflexivity|].
  destruct (clientsReset_grows_at_tail exNewClient (exOk 7)
              (exServer 5 [0; 1]%nat) eq_refl eq_refl eq_refl)
    as (_ & Hcl & Hlen & _).
  split.
  - rewrite Hcl. reflexivity.
  - rewrite Hlen. reflexivity.
Defined.

Lemma clientsReset_same_count_no_stop_no_create_witness :
  len (clients (exServer 2 [0; 1]%nat)) = Workers (cfg (exServer 2 [0; 1]%nat))
  /\
  clients (fst (fst (clientsReset exNewClient (exOk 7)
                       (exServer 2 [0; 1]%nat)))) = [0; 1]%nat /\
  exits (snd (fst (clientsReset exNewClient (exOk 7)
                     (exServer 2 [0; 1]%nat)))) = [] /\
  created (snd (fst (clientsReset exNewClient (exOk 7)
                       (exServer 2 [0; 1]%nat)))) = [].
Proof.
  split; [reflexivity|].
  exact (clientsReset_same_count_no_stop_no_create exNewClient (exOk 7)
           (exServer 2 [0; 1]%nat) eq_refl).
Defined.

(** C10, as stated, fails on the describe-error path: besides [errors],
    [lastError] and [reseting], the field [awsSvc] is written (it was
    [None] and holds the service of the new session on return). *)
Lemma clientsReset_describe_error_writes_awsSvc_counterexample :
  snd (clientsReset exNewClient (exDescribeErr 9) (exServer 1 [0]%nat))
    = RetErr "not found"%string /\
  awsSvc (exServer 1 [0]%nat) = None /\
  awsSvc (fst (fst (clientsReset exNewClient (exDescribeErr 9)
                      (exServer 1 [0]%nat))))
    = Some (mkFirehose 1%nat "eu-west-1"%string) /\
  awsSvc (fst (fst (clientsReset exNewClient (exDescribeErr 9)
                      (exServer 1 [0]%nat))))
    <> awsSvc (exServer 1 [0]%nat).
Proof.
  split; [reflexivity|]. split; [reflexivity|]. split; [reflexivity|].
  vm_compute. discriminate.
Qed.

Lemma clientsReset_error_frame_witness :
  snd (clientsReset exNewClient (exSessionErr 9) exThreshold)
    = RetErr "no credentials"%string /\
  fst (fst (clientsReset exNewClient (exSessionErr 9) exThreshold))
    = mkServer (exConfig 1) [0]%nat None 0 9 11 false false false.
Proof.
  split; [reflexivity|].
  refine (eq_trans
            (proj1 (clientsReset_error_frame exNewClient (exSessionErr 9)
                      exThreshold
                      (fst (fst (clientsReset exNewClient (exSessionErr 9)
                                   exThreshold)))
                      (snd (fst (clientsReset exNewClient (exSessionErr 9)
                                   exThreshold)))
                      "no credentials"%string eq_refl)) _).
  reflexivity.
Defined.

(** C7, as stated, fails for a caller of [failure] that arrives while the
    loop of [retry] runs: in the state [exBlocked], reached by one call of
    [failure] that starts [retry] and a second call, the second caller is
    at [srv.Lock()], no step lets its call run, and every step that frees
    the mutex is the return of the loop. The caller waits until the
    reconnection is complete. *)
Lemma failure_caller_waits_for_retry_loop_counterexample :
  reachable exNewClient exThreshold exBlocked /\
  waiting (goroutines exBlocked) = 1%nat /\
  loops (goroutines exBlocked) = 1%nat /\
  (forall now1 now2 s',
      ~ step exNewClient exBlocked (LFailure now1 now2) s') /\
  (forall l s', step exNewClient exBlocked l s' ->
                (1 <= waiting (goroutines s'))%nat /\
                (locked s' = false -> exists env, l = LIterReturn env)).
Proof.
  split; [apply exBlocked_reachable|].
  split; [reflexivity|]. split; [reflexivity|]. split.
  - intros now1 now2 s' H. inversion H.
  - intros l s' H.
    exact (step_locked_callers_wait exNewClient exBlocked s' l H eq_refl).
Qed.

Lemma failure_starts_retry_async_under_mutex_witness :
  reachable exNewClient exThreshold exCalled /\
  step exNewClient exCalled (LFailure 100 101) exSpawned /\
  locked exSpawned = false /\
  pending (goroutines exSpawned) = 1%nat /\
  loops (goroutines exSpawned) = 0%nat.
Proof.
  split; [apply exCalled_reachable|]. split; [apply exCalled_step|].
  destruct (proj1 (proj2 (failure_starts_retry_async_under_mutex exNewClient
                            exThreshold exCalled exCalled_reachable))
              100 101 exSpawned exCalled_step)
    as (_ & _ & _ & Hl & Hloops & _ & Hp & _).
  split; [exact Hl|]. split; [|exact Hloops].
  rewrite Hp. reflexivity.
Defined.

(** ** The further properties on the concrete pool *)

Lemma exGrow_nil :
  snd (clientsReset exNewClient (exOk 7) (exServer 5 [0; 1]%nat)) = RetNil.
Proof. vm_compute. reflexivity. Qed.

Lemma exShrink_nil :
  snd (clientsReset exNewClient (exOk 7) (exServer 2 [0; 1; 2; 3; 4]%nat))
  = RetNil.
Proof. vm_compute. reflexivity. Qed.

Lemma clientsReset_nil_postcondition_witness :
  exiting (exServer 5 [0; 1]%nat) = false /\
  snd (clientsReset exNewClient (exOk 7) (exServer 5 [0; 1]%nat)) = RetNil /\
  len (clients (fst (fst (clientsReset exNewClient (exOk 7)
                            (exServer 5 [0; 1]%nat)))))
    = Workers (cfg (exServer 5 [0; 1]%nat)).
Proof.
  split; [reflexivity|]. split; [exact exGrow_nil|].
  pose proof exGrow_nil as Hnil.
  destruct (clientsReset exNewClient (exOk 7) (exServer 5 [0; 1]%nat))
    as [[srv1 tr1] o] eqn:E.
  cbn [fst snd] in *. rewrite Hnil in E.
  exact (proj1 (clientsReset_nil_postcondition exNewClient (exOk 7)
                  (exServer 5 [0; 1]%nat) srv1 tr1 eq_refl E)).
Defined.

Lemma clientsReset_negative_workers_panics_witness :
  exiting (exServer (-1) [0; 1]%nat) = false /\
  attemptFails (exOk 7) = false /\
  Workers (cfg (exServer (-1) [0; 1]%nat)) < 0 /\
  snd (clientsReset exNewClient (exOk 7) (exServer (-1) [0; 1]%nat))
    = Panicked /\
  exits (snd (fst (clientsReset exNewClient (exOk 7)
                     (exServer (-1) [0; 1]%nat))))
    = [(1, 1%nat); (0, 0%nat)].
Proof.
  split; [reflexivity|]. split; [reflexivity|]. split; [reflexivity|].
  destruct (clientsReset_negative_workers_panics exNewClient (exOk 7)
              (exServer (-1) [0; 1]%nat) eq_refl eq_refl eq_refl)
    as (Ho & _ & Hx & _).
  split; [exact Ho|]. rewrite Hx. reflexivity.
Defined.

Lemma clientsReset_twice_keeps_pool_witness :
  exiting (exServer 5 [0; 1]%nat) = false /\
  snd (clientsReset exNewClient (exOk 7) (exServer 5 [0; 1]%nat)) = RetNil /\
  attemptFails (exOk 8) = false /\
  clients (fst (fst (clientsReset exNewClient (exOk 8)
             (fst (fst (clientsReset exNewClient (exOk 7)
                          (exServer 5 [0; 1]%nat)))))))
    = clients (fst (fst (clientsReset exNewClient (exOk 7)
                           (exServer 5 [0; 1]%nat)))).
Proof.
  split; [reflexivity|]. split; [exact exGrow_nil|]. split; [reflexivity|].
  pose proof exGrow_nil as Hnil.
  destruct (clientsReset exNewClient (exOk 7) (exServer 5 [0; 1]%nat))
    as [[srv1 tr1] o] eqn:E.
  cbn [fst snd] in *. rewrite Hnil in E.
  exact (proj1 (proj2 (clientsReset_twice_keeps_pool exNewClient (exOk 7)
                         (exOk 8) (exServer 5 [0; 1]%nat) srv1 tr1
                         eq_refl E eq_refl))).
Defined.

Lemma clientsReset_remote_calls_witness :
  exiting (exServer 1 [0]%nat) = false /\
  remote (snd (fst (clientsReset exNewClient (exDescribeErr 9)
                      (exServer 1 [0]%nat))))
    = [EvNewSession;
       EvDescribe (mkFirehose 1%nat "eu-west-1"%string) "stream"%string].
Proof.
  split; [reflexivity|].
  rewrite (clientsReset_remote_calls exNewClient (exDescribeErr 9)
             (exServer 1 [0]%nat) eq_refl).
  reflexivity.
Defined.

Lemma clientsReset_stored_count_witness :
  exiting (exServer 2 [0; 1; 2; 3; 4]%nat) = false /\
  snd (clientsReset exNewClient (exOk 7) (exServer 2 [0; 1; 2; 3; 4]%nat))
    = RetNil /\
  stored (snd (fst (clientsReset exNewClient (exOk 7)
                      (exServer 2 [0; 1; 2; 3; 4]%nat)))) = [2; 2].
Proof.
  split; [reflexivity|]. split; [exact exShrink_nil|].
  pose proof exShrink_nil as Hnil.
  destruct (clientsReset exNewClient (exOk 7)
              (exServer 2 [0; 1; 2; 3; 4]%nat)) as [[srv1 tr1] o] eqn:E.
  cbn [fst snd] in *. rewrite Hnil in E.
  rewrite (clientsReset_stored_count exNewClient (exOk 7)
             (exServer 2 [0; 1; 2; 3; 4]%nat) srv1 tr1 eq_refl E).
  reflexivity.
Defined.

Lemma exBurst_withinFrame :
  withinFrame (lastError (exServer 1 [0]%nat)) exBurst.
Proof. vm_compute. repeat split; discriminate. Qed.

Lemma failures_within_frame_accumulate_witness :
  reseting (exServer 1 [0]%nat) = false /\
  exiting (exServer 1 [0]%nat) = false /\
  withinFrame (lastError (exServer 1 [0]%nat)) exBurst /\
  errors (fst (failuresTrace exBurst (exServer 1 [0]%nat))) = 11 /\
  Z.of_nat (spawned (snd (failuresTrace exBurst (exServer 1 [0]%nat)))) = 1.
Proof.
  split; [reflexivity|]. split; [reflexivity|].
  split; [exact exBurst_withinFrame|].
  destruct (failures_within_frame_accumulate exBurst (exServer 1 [0]%nat)
              eq_refl eq_refl exBurst_withinFrame)
    as [He Hs].
  - vm_compute. discriminate.
  - vm_compute. discriminate.
  - split; [rewrite He; reflexivity|rewrite Hs; reflexivity].
Defined.

Lemma failures_ignored_while_reseting_or_exiting_witness :
  reseting exExiting || exiting exExiting = true /\
  failuresTrace exBurst exExiting = (exExiting, []).
Proof.
  split; [reflexivity|].
  exact (failures_ignored_while_reseting_or_exiting exBurst exExiting eq_refl).
Defined.

Lemma exFails2 :
  Forall (fun env : Attempt exSession => attemptFails env = true)
         [exSessionErr 1; exDescribeErr 2].
Proof. repeat constructor. Qed.

Lemma retry_failing_attempts_keep_pool_witness :
  failing (exServer 1 [0; 1]%nat) = false /\
  exiting (exServer 1 [0; 1]%nat) = false /\
  clients (fst (fst (retry exNewClient [exSessionErr 1; exDescribeErr 2]
                       (exServer 1 [0; 1]%nat)))) = [0; 1]%nat /\
  errors (fst (fst (retry exNewClient [exSessionErr 1; exDescribeErr 2]
                      (exServer 1 [0; 1]%nat)))) = 2.
Proof.
  split; [reflexivity|]. split; [reflexivity|].
  destruct (retry_failing_attempts_keep_pool exNewClient
              [exSessionErr 1; exDescribeErr 2] (exServer 1 [0; 1]%nat)
              eq_refl eq_refl exFails2)
    as (Hc & _ & _ & _ & He & _).
  - vm_compute. discriminate.
  - vm_compute. discriminate.
  - split; [rewrite Hc; reflexivity|rewrite He; reflexivity].
Defined.

Lemma retry_total_backoff_witness :
  failing (exServer 1 [0; 1]%nat) = false /\
  exiting (exServer 1 [0; 1]%nat) = false /\
  total (sleeps (snd (fst (retry exNewClient [exSessionErr 1; exDescribeErr 2]
                             (exServer 1 [0; 1]%nat))))) = 10 * Second.
Proof.
  split; [reflexivity|]. split; [reflexivity|].
  rewrite (retry_total_backoff exNewClient [exSessionErr 1; exDescribeErr 2]
             (exServer 1 [0; 1]%nat) eq_refl eq_refl exFails2).
  - reflexivity.
  - vm_compute. discriminate.
Defined.

Lemma exRetry_returns :
  snd (retry exNewClient [exSessionErr 1; exOk 2] (exServer 1 [0; 1]%nat))
  = RetryReturned.
Proof. vm_compute. reflexivity. Qed.

Lemma retry_again_reconnects_witness :
  failing (exServer 1 [0; 1]%nat) = false /\
  exiting (exServer 1 [0; 1]%nat) = false /\
  snd (retry exNewClient [exSessionErr 1; exOk 2] (exServer 1 [0; 1]%nat))
    = RetryReturned /\
  failing (fst (fst (retry exNewClient [exSessionErr 1; exOk 2]
                       (exServer 1 [0; 1]%nat)))) = false.
Proof.
  split; [reflexivity|]. split; [reflexivity|].
  split; [exact exRetry_returns|].
  pose proof exRetry_returns as Hret.
  destruct (retry exNewClient [exSessionErr 1; exOk 2]
              (exServer 1 [0; 1]%nat)) as [[srv1 tr1] ex] eqn:E.
  cbn [fst snd] in *. rewrite Hret in E.
  exact (proj1 (retry_again_reconnects exNewClient
                  [exSessionErr 1; exOk 2] (exServer 1 [0; 1]%nat) srv1 tr1
                  eq_refl eq_refl E)).
Defined.

Lemma reachable_flags_witness :
  reachable exNewClient exThreshold exBlocked /\
  exiting (server exBlocked) = exiting exThreshold /\
  reseting (server exBlocked) = false /\
  failing (server exBlocked) = true.
Proof.
  split; [exact exBlocked_reachable|].
  destruct (reachable_flags exNewClient exThreshold exBlocked
              exBlocked_reachable) as (_ & He & Hr & Hf).
  split; [exact He|]. split; [exact (Hr eq_refl)|exact (Hf eq_refl)].
Defined.

Lemma retry_returns_reconciled_witness :
  failing (exServer 1 [0; 1]%nat) = false /\
  exiting (exServer 1 [0; 1]%nat) = false /\
  snd (retry exNewClient [exSessionErr 1; exOk 2] (exServer 1 [0; 1]%nat))
    = RetryReturned /\
  len (clients (fst (fst (retry exNewClient [exSessionErr 1; exOk 2]
                            (exServer 1 [0; 1]%nat)))))
    = Workers (cfg (fst (fst (retry exNewClient [exSessionErr 1; exOk 2]
                                (exServer 1 [0; 1]%nat))))).
Proof.
  split; [reflexivity|]. split; [reflexivity|].
  split; [exact exRetry_returns|].
  pose proof exRetry_returns as Hret.
  destruct (retry exNewClient [exSessionErr 1; exOk 2]
              (exServer 1 [0; 1]%nat)) as [[srv1 tr1] ex] eqn:E.
  cbn [fst snd] in *. rewrite Hret in E.
  exact (proj1 (retry_returns_reconciled exNewClient
                  [exSessionErr 1; exOk 2] (exServer 1 [0; 1]%nat) srv1 tr1
                  eq_refl eq_refl E)).
Defined.

Lemma exSparse_beyondFrame : beyondFrame (lastError exThreshold) exSparse.
Proof. vm_compute. repeat split. Qed.

Lemma failures_beyond_frame_never_retry_witness :
  reseting exThreshold = false /\
  exiting exThreshold = false /\
  beyondFrame (lastError exThreshold) exSparse /\
  spawned (snd (failuresTrace exSparse exThreshold)) = 0%nat /\
  errors (fst (failuresTrace exSparse exThreshold)) = 1.
Proof.
  split; [reflexivity|]. split; [reflexivity|].
  split; [exact exSparse_beyondFrame|].
  destruct (failures_beyond_frame_never_retry exSparse exThreshold
              eq_refl eq_refl exSparse_beyondFrame) as [Hs He].
  split; [exact Hs|]. apply He. discriminate.
Defined.
